(** * Spreadsheet-to-CRM line-item synchronisation: a shallow embedding

    The Apps Script sources are embedded as Rocq functions over a model of
    JavaScript values.  Conventions:

    - a JavaScript number is an IEEE 754 binary64 value ([float]);
    - a plain object is the list of its own enumerable properties in
      enumeration order (array-index names first, in ascending numeric
      order, then the other names in creation order);
    - of what a plain object inherits, the method [hasOwnProperty], which
      the scripts call on their data, is modelled: an own property of that
      name hides it, and the call then throws.  The accessor [__proto__]
      is not modelled, so a property named [__proto__] is outside the
      model, and the conversions of an object to a string or a number use
      the inherited [toString] and [valueOf];
    - a thrown exception is the [Throw] result, carrying its message;
    - services of the JavaScript runtime that the scripts call
      ([String.prototype.trim], [JSON.parse], number formatting and
      parsing) are the fields of a [Runtime] record the functions take;
    - the spreadsheet and the remote store are inputs: the functions take
      the cell values that the sheets hold (column A of the parameter
      sheet, the header row, the data rows), the parsed bodies of the
      responses to the queries and, where a run goes on after them, the
      outcomes of the token exchange and of the update request; cell
      values are JavaScript values other than [Date] objects, and the rows
      of a range all have the width of the range;
    - of the log, the warnings of the mapping loop are kept. *)

From Stdlib Require Import String Ascii List Bool Arith NArith ZArith Lia.
From Stdlib Require Import Sorting.Sorted Sorting.Permutation.
From Stdlib Require Import DecimalString.
From Stdlib Require Import Numbers.Cyclic.Int63.Uint63 Floats.PrimFloat.
Import ListNotations.

Local Open Scope string_scope.
Local Open Scope list_scope.

(** ** JavaScript values *)

#[warnings="-register-all"]
Inductive JsValue : Type :=
| JUndefined
| JNull
| JBool (b : bool)
| JNum (x : float)
| JStr (s : string)
| JArr (items : list JsValue)
| JObj (props : list (string * JsValue)).

(** Own enumerable properties, in enumeration order. *)
Definition Props (A : Type) : Type := list (string * A).
Definition JsObject : Type := Props JsValue.

(** ** Results of computations that may throw *)

Inductive Result (A : Type) : Type :=
| Ok (a : A)
| Throw (message : string).
Arguments Ok {A} a.
Arguments Throw {A} message.

Definition bind {A B : Type} (r : Result A) (k : A -> Result B) : Result B :=
  match r with
  | Ok a => k a
  | Throw m => Throw m
  end.

Notation "x <- r ;; k" := (bind r (fun x => k))
  (at level 61, r at next level, right associativity).

(** A loop whose body may throw: the state is threaded through the
    elements in order, and the first exception ends the loop. *)
Fixpoint fold_result {A B : Type} (f : A -> B -> Result A) (l : list B) (a : A)
  : Result A :=
  match l with
  | [] => Ok a
  | x :: r =>
      a' <- f a x ;;
      fold_result f r a'
  end.

(** Sequential [Array.prototype.map] with a callback that may throw. *)
Fixpoint map_result {A B : Type} (f : A -> Result B) (l : list A) : Result (list B) :=
  match l with
  | [] => Ok []
  | x :: r =>
      y <- f x ;;
      ys <- map_result f r ;;
      Ok (y :: ys)
  end.

(** ** Property tables *)

Module Obj.

Definition digit_of (c : ascii) : option N :=
  let n := N_of_ascii c in
  if (48 <=? n)%N && (n <=? 57)%N then Some (n - 48)%N else None.

Fixpoint digits_value (s : string) (acc : N) : option N :=
  match s with
  | EmptyString => Some acc
  | String c r =>
      match digit_of c with
      | Some d => digits_value r (10 * acc + d)%N
      | None => None
      end
  end.

(** An array index is a canonical decimal numeral below 2^32 - 1. *)
Definition array_index (s : string) : option N :=
  match s with
  | EmptyString => None
  | String "0"%char EmptyString => Some 0%N
  | String "0"%char _ => None
  | _ =>
      match digits_value s 0 with
      | Some n => if (n <? 4294967295)%N then Some n else None
      | None => None
      end
  end.

(** [before k k'] : a newly created property [k] is enumerated ahead of an
    existing property [k']. *)
Definition before (k k' : string) : bool :=
  match array_index k, array_index k' with
  | Some a, Some b => (a <? b)%N
  | Some _, None => true
  | None, _ => false
  end.

Section Generic.
Context {A : Type}.

Fixpoint get_own (o : Props A) (k : string) : option A :=
  match o with
  | [] => None
  | (k', v) :: r => if String.eqb k' k then Some v else get_own r k
  end.

Definition has (o : Props A) (k : string) : bool :=
  match get_own o k with Some _ => true | None => false end.

Fixpoint replace (o : Props A) (k : string) (v : A) : Props A :=
  match o with
  | [] => []
  | (k', v') :: r =>
      if String.eqb k' k then (k', v) :: r else (k', v') :: replace r k v
  end.

Fixpoint create (o : Props A) (k : string) (v : A) : Props A :=
  match o with
  | [] => [(k, v)]
  | (k', v') :: r =>
      if before k k' then (k, v) :: (k', v') :: r
      else (k', v') :: create r k v
  end.

(** The assignment [o[k] = v]. *)
Definition set (o : Props A) (k : string) (v : A) : Props A :=
  if has o k then replace o k v else create o k v.

Definition keys (o : Props A) : list string := map fst o.

(** A property table is well formed when no name occurs twice and the
    names stand in enumeration order; the tables of JavaScript objects are
    the well-formed ones. *)
Definition wf (o : Props A) : Prop :=
  NoDup (keys o) /\ StronglySorted (fun k k' => before k' k = false) (keys o).

End Generic.

End Obj.

(** ** The JavaScript runtime *)

Record Runtime : Type := {
  (** [String.prototype.trim] *)
  trim : string -> string;
  (** [JSON.parse]: the parsed value, or the message of the SyntaxError *)
  JSON_parse : string -> Result JsValue;
  (** Number::toString *)
  number_to_string : float -> string;
  (** StringToNumber *)
  string_to_number : string -> float
}.

Definition nat_to_string (n : nat) : string :=
  NilEmpty.string_of_uint (Nat.to_uint n).

(** ** Conversions and operators *)

Definition truthy_num (x : float) : bool := negb (is_zero x || is_nan x).

(** ToBoolean. *)
Definition truthy (v : JsValue) : bool :=
  match v with
  | JUndefined | JNull => false
  | JBool b => b
  | JNum x => truthy_num x
  | JStr s => negb (String.eqb s "")
  | JArr _ | JObj _ => true
  end.

Definition isArray (v : JsValue) : bool :=
  match v with JArr _ => true | _ => false end.

(** [typeof v === 'object' && v !== null] *)
Definition is_object (v : JsValue) : bool :=
  match v with JArr _ | JObj _ => true | _ => false end.

(** Member access [v.name] for a name that no prototype defines: it throws
    on [undefined] and [null] and reads an own property of an object.  The
    messages of the TypeErrors of the engine are abridged. *)
Definition prop (v : JsValue) (name : string) : Result JsValue :=
  match v with
  | JUndefined => Throw "Cannot read properties of undefined"
  | JNull => Throw "Cannot read properties of null"
  | JObj o => Ok (match Obj.get_own o name with Some w => w | None => JUndefined end)
  | _ => Ok JUndefined
  end.

(** [a[i]] on an array: [undefined] out of range. *)
Definition index (a : list JsValue) (i : nat) : JsValue := nth i a JUndefined.

Fixpoint indexed_from {A : Type} (i : nat) (l : list A) : Props A :=
  match l with
  | [] => []
  | x :: r => (nat_to_string i, x) :: indexed_from (S i) r
  end.

Fixpoint chars (s : string) : list JsValue :=
  match s with
  | EmptyString => []
  | String c r => JStr (String c EmptyString) :: chars r
  end.

(** The pairs [(key, v[key])] that [for (key in v)] visits. *)
Definition enumerable (v : JsValue) : JsObject :=
  match v with
  | JObj o => o
  | JArr l => indexed_from 0 l
  | JStr s => indexed_from 0 (chars s)
  | _ => []
  end.


(** What a key holds after one more value arrives for it. *)
Definition merged (cur : option JsValue) (value : JsValue) : JsValue :=
  match cur with
  | None => value
  | Some (JArr l) => JArr (l ++ [value])
  | Some c => JArr [c; value]
  end.

(** [o.name] on an object. *)
Definition field (o : JsObject) (name : string) : JsValue :=
  match Obj.get_own o name with
  | Some v => v
  | None => JUndefined
  end.

(** The call [o.hasOwnProperty(k)] on a plain object [o], written
    [expression] in the source.  The method is inherited: an own property
    named [hasOwnProperty] hides it, and since the values of the model are
    not functions the call then throws a TypeError. *)
Definition hasOwnProperty (expression : string) (o : JsObject) (k : string)
  : Result bool :=
  if Obj.has o "hasOwnProperty" then
    Throw (expression ++ ".hasOwnProperty is not a function")%string
  else Ok (Obj.has o k).


(** One resolved column: [{ api: <object_api_name>, col: <columnIndex> }]. *)
Record Mapping : Type := { api : JsValue; col : nat }.

(** ** RecordFlattener: [formatOLIs] *)

Definition assign (o : JsObject) (kv : string * JsValue) : JsObject :=
  Obj.set o (fst kv) (snd kv).

(** The body of [for (var nestedKey in record[key])]: an array inherits
    [hasOwnProperty] and has no named property of its own to hide it. *)
Definition flatten_nested (value : JsValue) (flatRecord : JsObject)
  (nkv : string * JsValue) : Result JsObject :=
  own <- match value with
         | JObj o => hasOwnProperty "record[key]" o (fst nkv)
         | _ => Ok true
         end ;;
  Ok (if own then assign flatRecord nkv else flatRecord).

(** The body of [for (var key in record)]. *)
Definition flatten_key (record flatRecord : JsObject) (kv : string * JsValue)
  : Result JsObject :=
  let (key, value) := kv in
  own <- hasOwnProperty "record" record key ;;
  if own then
    if is_object value then
      fold_result (flatten_nested value) (enumerable value) flatRecord
    else Ok (Obj.set flatRecord key value)
  else Ok flatRecord.

Definition flatten_record (record : JsObject) : Result JsObject :=
  fold_result (flatten_key record) record [].

Definition formatOLIs (oliData : list JsObject) : Result (list JsObject) :=
  map_result flatten_record oliData.

(** What [flatten_key] and [flatten_record] give when no call of
    [hasOwnProperty] throws: every such call is on a name that the loop
    has just enumerated and returns [true]. *)
Definition flat_key (flatRecord : JsObject) (kv : string * JsValue) : JsObject :=
  let (key, value) := kv in
  if is_object value then fold_left assign (enumerable value) flatRecord
  else Obj.set flatRecord key value.

Definition flat_record (record : JsObject) : JsObject :=
  fold_left flat_key record [].

(** An object on which [hasOwnProperty] can be called. *)
Definition plain (o : JsObject) : bool := negb (Obj.has o "hasOwnProperty").

(** The record is one that [flatten_record] returns on: unless it is
    empty, neither the record nor a nested object has a field
    [hasOwnProperty] of its own. *)
Definition groups_plain (l : JsObject) : bool :=
  forallb (fun kv => match snd kv with JObj o => plain o | _ => true end) l.

Definition flattens (record : JsObject) : bool :=
  match record with
  | [] => true
  | _ :: _ => plain record && groups_plain record
  end.

(** A record without nested objects. *)
Definition scalar_only (record : JsObject) : Prop :=
  Forall (fun kv => is_object (snd kv) = false) record.

(** The entry [kv] of a record makes [formatOLIs] assign the field [k]. *)
Definition overwrites (kv : string * JsValue) (k : string) : bool :=
  if is_object (snd kv) then Obj.has (enumerable (snd kv)) k
  else String.eqb (fst kv) k.

(** The record has a top-level field [k] and, further on, an entry that
    makes [formatOLIs] assign [k] again. *)
Fixpoint shadowed (record : JsObject) (k : string) : bool :=
  match record with
  | [] => false
  | (key, value) :: rest =>
      if String.eqb key k then existsb (fun kv => overwrites kv k) rest
      else shadowed rest k
  end.

(** The entry [(k, v)] of a record is the last one from which
    [formatOLIs] assigns the field [k]. *)
Definition settled (o : JsObject) (k : string) (v : JsValue) : Prop :=
  exists pre post,
    o = pre ++ (k, v) :: post /\
    Forall (fun kv => overwrites kv k = false) post.

(** ** Stamping: step 5 of [processOliRecords] *)

Definition stamp (oppId newRevision : JsValue) (record : JsObject) : JsObject :=
  let record1 := Obj.set record "opportunity_id__c" oppId in
  let record2 := Obj.set record1 "Active__c" (JBool true) in
  Obj.set record2 "Version_Number__c" newRevision.

(** ** The object store *)

(** Objects that a callee updates in place live in a heap and are passed
    by address. *)
Definition Heap : Type := list JsObject.

Fixpoint store (h : Heap) (a : nat) (o : JsObject) : Heap :=
  match h, a with
  | [], _ => []
  | _ :: r, O => o :: r
  | x :: r, S a' => x :: store r a' o
  end.

(** The object literal [{ ...init, ...item }]. *)
Definition spread (init item : JsObject) : JsObject :=
  fold_left assign item init.

Definition attributes : string * JsValue :=
  ("attributes", JObj [("type", JStr "jellyfish_line_item__c")]).

Section Conversions.
Context (rt : Runtime).

Fixpoint ToString (v : JsValue) : string :=
  match v with
  | JUndefined => "undefined"
  | JNull => "null"
  | JBool true => "true"
  | JBool false => "false"
  | JNum x => number_to_string rt x
  | JStr s => s
  | JArr items =>
      (fix join (l : list JsValue) : string :=
         match l with
         | [] => ""
         | x :: r =>
             let e := match x with
                      | JUndefined | JNull => ""
                      | _ => ToString x
                      end in
             match r with
             | [] => e
             | _ :: _ => (e ++ "," ++ join r)%string
             end
         end) items
  | JObj _ => "[object Object]"
  end.

Definition ToPrimitive (v : JsValue) : JsValue :=
  match v with
  | JArr _ | JObj _ => JStr (ToString v)
  | _ => v
  end.

Definition ToNumber (v : JsValue) : float :=
  match v with
  | JUndefined => nan
  | JNull => 0%float
  | JBool true => 1%float
  | JBool false => 0%float
  | JNum x => x
  | JStr s => string_to_number rt s
  | JArr _ | JObj _ => string_to_number rt (ToString v)
  end.

(** The operator [a * b]. *)
Definition js_mul (a b : JsValue) : JsValue :=
  JNum (ToNumber a * ToNumber b).

(** The operator [a + b]. *)
Definition js_add (a b : JsValue) : JsValue :=
  match ToPrimitive a, ToPrimitive b with
  | JStr s, pb => JStr (s ++ ToString pb)%string
  | pa, JStr t => JStr (ToString pa ++ t)%string
  | pa, pb => JNum (ToNumber pa + ToNumber pb)
  end.

(** ** ParameterAggregator: [loadParametersFromJson] *)

(** The two branches of the body of [for (var key in parsed)], given what
    [params.hasOwnProperty(key)] returned. *)
Definition aggregate_step (params : JsObject) (key : string) (value : JsValue)
  (own : bool) : JsObject :=
  if own then
    let params1 :=
      match Obj.get_own params key with
      | Some cur => if isArray cur then params else Obj.set params key (JArr [cur])
      | None => params
      end in
    match Obj.get_own params1 key with
    | Some (JArr l) => Obj.set params1 key (JArr (l ++ [value]))
    | _ => params1
    end
  else Obj.set params key value.

(** The body of [for (var key in parsed)]. *)
Definition aggregate_key (params : JsObject) (kv : string * JsValue)
  : Result JsObject :=
  own <- hasOwnProperty "params" params (fst kv) ;;
  Ok (aggregate_step params (fst kv) (snd kv) own).

Definition aggregate_parsed (params : JsObject) (parsed : JsValue) : Result JsObject :=
  fold_result aggregate_key (enumerable parsed) params.

(** What [aggregate_key] and [aggregate_parsed] give when the call of
    [hasOwnProperty] returns. *)
Definition merge_key (params : JsObject) (kv : string * JsValue) : JsObject :=
  aggregate_step params (fst kv) (snd kv) (Obj.has params (fst kv)).

Definition merge_parsed (params : JsObject) (parsed : JsValue) : JsObject :=
  fold_left merge_key (enumerable parsed) params.

(** [String(data[i][0]).trim()] *)
Definition cell_text (row : list JsValue) : string :=
  trim rt (ToString (index row 0)).

(** The loop [for (var i = startRow; i < data.length; i++)], entered at row
    index [i] with the rows from [i] on.  The [try] block holds the call of
    [JSON.parse] and the loop over the keys: what either throws is thrown
    again under the number of the row. *)
Fixpoint load_rows (rows : list (list JsValue)) (i : nat) (params : JsObject)
  : Result JsObject :=
  match rows with
  | [] => Ok params
  | row :: rest =>
      let cellValue := cell_text row in
      if String.eqb cellValue "" then load_rows rest (S i) params
      else
        match (parsed <- JSON_parse rt cellValue ;; aggregate_parsed params parsed) with
        | Ok params' => load_rows rest (S i) params'
        | Throw message =>
            Throw ("Error parsing JSON at row " ++ nat_to_string (i + 1)
                   ++ ": " ++ message)%string
        end
  end.

(** The one-shot header test on the first cell. *)
Definition startRow (data : list (list JsValue)) : nat :=
  match data with
  | [] => 1
  | row :: _ =>
      match JSON_parse rt (cell_text row) with
      | Ok _ => 0
      | Throw _ => 1
      end
  end.

(** [data] is column A of the parameter sheet, rows 1 to [lastRow]. *)
Definition loadParametersFromJson (data : list (list JsValue)) : Result JsObject :=
  if Nat.ltb (length data) 1 then Throw "No data found in 'JF_SCRIPT_PARAMS' sheet."
  else load_rows (skipn (startRow data) data) (startRow data) [].

(** The values that the non-blank cells of [rows] parse to, in row order. *)
Fixpoint parsed_cells (rows : list (list JsValue)) : list JsValue :=
  match rows with
  | [] => []
  | row :: rest =>
      if String.eqb (cell_text row) "" then parsed_cells rest
      else
        match JSON_parse rt (cell_text row) with
        | Ok parsed => parsed :: parsed_cells rest
        | Throw _ => parsed_cells rest
        end
  end.

(** ** ColumnMapper: the mapping loop of [buildDataTableFromParamsDynamic] *)

(** The inner loop over [headerRow], entered at column [j]: the index of
    the first cell whose trimmed text is [labelToFind]. *)
Fixpoint find_header (headerRow : list JsValue) (labelToFind : string) (j : nat)
  : option nat :=
  match headerRow with
  | [] => None
  | cell :: rest =>
      if String.eqb (trim rt (ToString cell)) labelToFind then Some j
      else find_header rest labelToFind (S j)
  end.

Definition warning (labelToFind key : string) : string :=
  ("Warning: Header label '" ++ labelToFind ++ "' for group '" ++ key
   ++ "' not found.")%string.

(** The body of the loop over [groupArray]; the state is the array
    [overallMapping[key]] and the warnings logged so far. *)
Definition resolve_item (headerRow : list JsValue) (key : string)
  (st : list Mapping * list string) (item : JsValue)
  : Result (list Mapping * list string) :=
  label <- prop item "object_label" ;;
  if negb (truthy label) then Ok st
  else
    apiName <- prop item "object_api_name" ;;
    if negb (truthy apiName) then Ok st
    else
      let labelToFind := trim rt (ToString label) in
      match find_header headerRow labelToFind 0 with
      | Some j => Ok (fst st ++ [{| api := apiName; col := j |}], snd st)
      | None => Ok (fst st, snd st ++ [warning labelToFind key])
      end.

Fixpoint resolve_group (headerRow : list JsValue) (key : string)
  (groupArray : list JsValue) (st : list Mapping * list string)
  : Result (list Mapping * list string) :=
  match groupArray with
  | [] => Ok st
  | item :: rest =>
      st' <- resolve_item headerRow key st item ;;
      resolve_group headerRow key rest st'
  end.

Definition reserved (key : string) : bool :=
  String.eqb key "Input Sheet" || String.eqb key "Table Header Row".

(** [Array.isArray(groupData) ? groupData : [groupData]] *)
Definition groupArray (groupData : JsValue) : list JsValue :=
  match groupData with
  | JArr l => l
  | _ => [groupData]
  end.

(** The loop [for (var key in params)]. *)
Fixpoint map_groups (headerRow : list JsValue) (entries : JsObject)
  (overallMapping : Props (list Mapping)) (log : list string)
  : Result (Props (list Mapping) * list string) :=
  match entries with
  | [] => Ok (overallMapping, log)
  | (key, groupData) :: rest =>
      if reserved key then map_groups headerRow rest overallMapping log
      else
        st <- resolve_group headerRow key (groupArray groupData) ([], log) ;;
        map_groups headerRow rest (Obj.set overallMapping key (fst st)) (snd st)
  end.

Definition buildOverallMapping (params : JsObject) (headerRow : list JsValue)
  : Result (Props (list Mapping) * list string) :=
  map_groups headerRow params [] [].

(** [j] is the leftmost column whose trimmed header text is the label. *)
Definition first_match (headerRow : list JsValue) (labelToFind : string) (j : nat)
  : Prop :=
  (exists cell, nth_error headerRow j = Some cell /\
                trim rt (ToString cell) = labelToFind) /\
  (forall j' cell', j' < j -> nth_error headerRow j' = Some cell' ->
                    trim rt (ToString cell') <> labelToFind).


(** ** TableBuilder: the row loop of [buildDataTableFromParamsDynamic] *)

(** [row[0] === "" || row[0] === null] *)
Definition blank_first_cell (row : list JsValue) : bool :=
  match index row 0 with
  | JStr "" => true
  | JNull => true
  | _ => false
  end.

(** The body of [for (var group in overallMapping)]. *)
Definition assign_group (row : list JsValue) (record : JsObject)
  (g : string * list Mapping) : JsObject :=
  let (group, mappings) := g in
  match mappings with
  | [] => record
  | [m] => Obj.set record (ToString (api m)) (index row (col m))
  | _ =>
      Obj.set record group
        (JObj (fold_left
                 (fun nested m => Obj.set nested (ToString (api m)) (index row (col m)))
                 mappings []))
  end.

Definition build_record (overallMapping : Props (list Mapping)) (row : list JsValue)
  : JsObject :=
  fold_left (assign_group row) overallMapping [].

Fixpoint build_records (overallMapping : Props (list Mapping))
  (dataRows : list (list JsValue)) : list JsObject :=
  match dataRows with
  | [] => []
  | row :: rest =>
      if blank_first_cell row then []
      else build_record overallMapping row :: build_records overallMapping rest
  end.

(** [buildDataTableFromParamsDynamic], given what the sheets hold: column A
    of the parameter sheet, the header row and the rows below it.  The
    result is the table and the warnings of the mapping loop. *)
Definition buildDataTableFromParamsDynamic (data : list (list JsValue))
  (headerRow : list JsValue) (dataRows : list (list JsValue))
  : Result (list JsObject * list string) :=
  params <- loadParametersFromJson data ;;
  inputSheet <- prop (JObj params) "Input Sheet" ;;
  _ <- prop inputSheet "Name" ;;
  tableHeaderRow <- prop (JObj params) "Table Header Row" ;;
  _ <- prop tableHeaderRow "Name" ;;
  m <- buildOverallMapping params headerRow ;;
  Ok (build_records (fst m) dataRows, snd m).


(** ** Revision lookup: [getHighestRevisionNumber] on the response body *)

(** [records.length > 0] *)
Definition has_elements (records : JsValue) : bool :=
  match records with
  | JArr l => negb (Nat.eqb (length l) 0)
  | JStr s => negb (Nat.eqb (String.length s) 0)
  | JObj o =>
      match Obj.get_own o "length" with
      | Some n => (0 <? ToNumber n)%float
      | None => false
      end
  | _ => false
  end.

(** [records[0]] *)
Definition first_element (records : JsValue) : JsValue :=
  match records with
  | JArr l => index l 0
  | JStr (String c _) => JStr (String c EmptyString)
  | JObj o =>
      match Obj.get_own o "0" with
      | Some r => r
      | None => JUndefined
      end
  | _ => JUndefined
  end.

Definition getHighestRevisionNumber (body : JsValue) : Result JsValue :=
  records <- prop body "records" ;;
  if truthy records && has_elements records then
    v <- prop (first_element records) "Version_Number__c" ;;
    Ok (if truthy v then v else JNum 0)
  else Ok (JNum 0).

(** [highestRevision + 1] *)
Definition newRevision (body : JsValue) : Result JsValue :=
  highestRevision <- getHighestRevisionNumber body ;;
  Ok (js_add highestRevision (JNum 1)).

(** ** Submission: [createLineItems] *)

(** The two assignments of the callback of [lineItems.map]. *)
Definition update_item (oppId : JsValue) (item : JsObject) : JsObject :=
  let item1 := Obj.set item "opportunity_id__c" oppId in
  Obj.set item1 "Sales_Discount__c"
    (js_mul (JNum 100) (field item1 "Sales_Discount__c")).

(** The callback of [lineItems.map]: it updates the item in place and
    returns the copy [{ attributes: ..., ...item }].  The items are
    objects of the caller, as [formatOLIs] returns them, given by their
    addresses in the heap since the callback writes to them; an address
    that holds no object stands for an item that is [undefined]. *)
Definition line_item_record (oppId : JsValue) (h : Heap) (a : nat)
  : Result (Heap * JsObject) :=
  match nth_error h a with
  | None => Throw "Cannot set properties of undefined"
  | Some item =>
      let item' := update_item oppId item in
      Ok (store h a item', spread [attributes] item')
  end.

(** The records of the request payload, and the heap after the call, once
    the token exchange with which the function begins has returned.
    [JSON.stringify], which writes the payload out, is the runtime's. *)
Fixpoint createLineItems (oppId : JsValue) (h : Heap) (lineItems : list nat)
  : Result (Heap * list JsObject) :=
  match lineItems with
  | [] => Ok (h, [])
  | a :: rest =>
      r <- line_item_record oppId h a ;;
      rs <- createLineItems oppId (fst r) rest ;;
      Ok (fst rs, snd r :: snd rs)
  end.

(** ** RevisionSynchronizer: [processOliRecords] *)

(** [oliData[0]["jellyfish_line_item__c"]["opportunity_id__c"]] *)
Definition parentId (oliData : list JsObject) : Result JsValue :=
  let first := match oliData with r :: _ => JObj r | [] => JUndefined end in
  lineItem <- prop first "jellyfish_line_item__c" ;;
  prop lineItem "opportunity_id__c".

(** The records of the create request of a run, given the table built in
    step 2, the body of the response to the revision query, and [token],
    the outcome of the call of [getSalesforceAccessToken] with which
    [createLineItems] begins.  The calls before it (the deactivation and
    the queries) are taken to have returned.  [formatOLIs] returns fresh
    objects, which take the addresses 0, 1, ... of the heap that
    [createLineItems] updates. *)
Definition processOliRecords (token : Result JsValue) (oliData : list JsObject)
  (revisionBody : JsValue) : Result (list JsObject) :=
  oppId <- parentId oliData ;;
  revision <- newRevision revisionBody ;;
  let stamped := map (stamp oppId revision) oliData in
  formattedOliData <- formatOLIs stamped ;;
  _ <- token ;;
  r <- createLineItems oppId formattedOliData (seq 0 (length formattedOliData)) ;;
  Ok (snd r).

End Conversions.

(** ** A runtime for the examples *)

Module Sample.

Definition is_space (c : ascii) : bool :=
  let n := nat_of_ascii c in
  Nat.eqb n 32 || Nat.eqb n 9 || Nat.eqb n 10 || Nat.eqb n 13.

Fixpoint trim_start (s : string) : string :=
  match s with
  | String c r => if is_space c then trim_start r else s
  | EmptyString => EmptyString
  end.

Fixpoint trim_end (s : string) : string :=
  match s with
  | EmptyString => EmptyString
  | String c r =>
      match trim_end r with
      | EmptyString => if is_space c then EmptyString else String c EmptyString
      | r' => String c r'
      end
  end.

(** JSON text written with apostrophes for the quotation marks. *)
Fixpoint json_text (s : string) : string :=
  match s with
  | EmptyString => EmptyString
  | String c r =>
      String (if Nat.eqb (nat_of_ascii c) 39 then ascii_of_nat 34 else c) (json_text r)
  end.

Definition label (l a : string) : JsValue :=
  JObj [("object_label", JStr l); ("object_api_name", JStr a)].

(** The parameter rows of the examples, with the values they denote. *)
Definition literals : Props JsValue :=
  [ (json_text "{'Input Sheet':{'Name':'Opp1'}}",
     JObj [("Input Sheet", JObj [("Name", JStr "Opp1")])]);
    (json_text "{'Table Header Row':{'Name':1}}",
     JObj [("Table Header Row", JObj [("Name", JNum 1)])]);
    (json_text "{'oli':{'object_label':'Product','object_api_name':'Product__c'}}",
     JObj [("oli", label "Product" "Product__c")]);
    (json_text "{'oli':{'object_label':'Qty','object_api_name':'Quantity__c'}}",
     JObj [("oli", label "Qty" "Quantity__c")]);
    (json_text "{'oli':[{'object_label':'Product','object_api_name':'Product__c'},{'object_label':'Qty','object_api_name':'Quantity__c'}]}",
     JObj [("oli", JArr [label "Product" "Product__c"; label "Qty" "Quantity__c"])]);
    (json_text "{'un':{'object_label':'Customer ID','object_api_name':'Customer_ID__c'}}",
     JObj [("un", label "Customer ID" "Customer_ID__c")]);
    (json_text "{'hasOwnProperty':{'object_label':'Owned','object_api_name':'Owned__c'}}",
     JObj [("hasOwnProperty", label "Owned" "Owned__c")]);
    (json_text "{'ver':{'object_label':'Rev','object_api_name':'Version_Number__c'}}",
     JObj [("ver", label "Rev" "Version_Number__c")]);
    (json_text "{'jellyfish_line_item__c':{'object_label':'Opp','object_api_name':'opportunity_id__c'}}",
     JObj [("jellyfish_line_item__c", label "Opp" "opportunity_id__c")]);
    (json_text "{'jellyfish_line_item__c':{'object_label':'Line Rev','object_api_name':'Version_Number__c'}}",
     JObj [("jellyfish_line_item__c", label "Line Rev" "Version_Number__c")]) ].

(** A parser that knows the rows above and rejects every other text. *)
Definition parse (text : string) : Result JsValue :=
  match Obj.get_own literals text with
  | Some v => Ok v
  | None => Throw "Unexpected token"
  end.

(** Decimal numerals of the small whole numbers. *)
Definition to_string (x : float) : string :=
  match find (fun n => (x =? of_uint63 (Uint63.of_Z (Z.of_nat n)))%float) (seq 0 101) with
  | Some n => nat_to_string n
  | None => "NaN"
  end.

Definition to_number (s : string) : float :=
  match find (fun n => String.eqb s (nat_to_string n)) (seq 0 101) with
  | Some n => of_uint63 (Uint63.of_Z (Z.of_nat n))
  | None => if String.eqb s "" then 0%float else nan
  end.

Definition runtime : Runtime :=
  {| trim := fun s => trim_end (trim_start s);
     JSON_parse := parse;
     number_to_string := to_string;
     string_to_number := to_number |}.

(** Column A of a parameter sheet: a header, three settings and a blank. *)
Definition rows : list (list JsValue) :=
  [ [JStr "Parameters"];
    [JStr (json_text "{'Input Sheet':{'Name':'Opp1'}}")];
    [JStr (json_text "{'Table Header Row':{'Name':1}}")];
    [JStr (json_text "{'oli':{'object_label':'Product','object_api_name':'Product__c'}}")];
    [JStr "  "];
    [JStr (json_text " {'oli':{'object_label':'Qty','object_api_name':'Quantity__c'}}")] ].

Definition params : JsObject :=
  [ ("Input Sheet", JObj [("Name", JStr "Opp1")]);
    ("Table Header Row", JObj [("Name", JNum 1)]);
    ("oli", JArr [label "Product" "Product__c"; label "Qty" "Quantity__c"]) ].


(** A parameter sheet with a malformed setting in row 4. *)
Definition rows_malformed_above : list (list JsValue) :=
  [ [JStr "Parameters"];
    [JStr (json_text "{'Input Sheet':{'Name':'Opp1'}}")];
    [JStr "   "] ].

Definition rows_malformed_below : list (list JsValue) :=
  [ [JStr (json_text "{'Table Header Row':{'Name':1}}")] ].

(** A parameter sheet with a group named [hasOwnProperty] in row 1, a
    setting in row 2 and a malformed cell in row 3. *)
Definition rows_shadowing : list (list JsValue) :=
  [ [JStr (json_text "{'hasOwnProperty':{'object_label':'Owned','object_api_name':'Owned__c'}}")];
    [JStr (json_text "{'Input Sheet':{'Name':'Opp1'}}")];
    [JStr "{oli: Product}"] ].

(** A parameter sheet that reads [Version_Number__c] twice: on its own
    from the column [Rev] and, within the line-item group, from the column
    [Line Rev]. *)
Definition rows_revision_twice : list (list JsValue) :=
  [ [JStr (json_text "{'Input Sheet':{'Name':'Opp1'}}")];
    [JStr (json_text "{'Table Header Row':{'Name':1}}")];
    [JStr (json_text "{'ver':{'object_label':'Rev','object_api_name':'Version_Number__c'}}")];
    [JStr (json_text "{'jellyfish_line_item__c':{'object_label':'Opp','object_api_name':'opportunity_id__c'}}")];
    [JStr (json_text "{'jellyfish_line_item__c':{'object_label':'Line Rev','object_api_name':'Version_Number__c'}}")] ].

Definition header_revision_twice : list JsValue :=
  [JStr "Opp"; JStr "Line Rev"; JStr "Rev"].

(** A token that the token exchange returns. *)
Definition token : Result JsValue := Ok (JStr "00D5g000004token").

(** The mapping of the [oli] group onto the header [Product | Qty]. *)
Definition mapping : Props (list Mapping) :=
  [ ("oli", [ {| api := JStr "Product__c"; col := 0 |};
              {| api := JStr "Quantity__c"; col := 1 |} ]) ].

(** A header row: two mapped columns around an unmapped one. *)
Definition header : list JsValue :=
  [JStr "Product"; JStr "Notes"; JStr " Qty "].

(** Responses of the store to the revision query. *)
Definition response_null_revision : JsValue :=
  JObj [("totalSize", JNum 1); ("done", JBool true);
        ("records", JArr [JObj [attributes; ("Version_Number__c", JNull)]])].

Definition response_revision_5 : JsValue :=
  JObj [("totalSize", JNum 1); ("done", JBool true);
        ("records", JArr [JObj [attributes; ("Version_Number__c", JNum 5)]])].

Definition response_no_record : JsValue :=
  JObj [("totalSize", JNum 0); ("done", JBool true); ("records", JArr [])].

(** A table of two line items of the opportunity [006A]. *)
Definition line_item (product : string) (discount : float) : JsObject :=
  [ ("jellyfish_line_item__c",
     JObj [ ("opportunity_id__c", JStr "006A"); ("Product__c", JStr product);
            ("Sales_Discount__c", JNum discount) ]) ].

Definition table : list JsObject :=
  [ line_item "Widget" 0.25; line_item "Gadget" 0.5 ].

(** A mapping that reads [Version_Number__c] twice: on its own from column
    2 and, within the line-item group, from column 1. *)
Definition mapping_revision_twice : Props (list Mapping) :=
  [ ("ver", [ {| api := JStr "Version_Number__c"; col := 2 |} ]);
    ("jellyfish_line_item__c",
     [ {| api := JStr "opportunity_id__c"; col := 0 |};
       {| api := JStr "Version_Number__c"; col := 1 |} ]) ].

End Sample.

(** ** Further functions of the scripts *)

Section Services.
Context (rt : Runtime).
(** [JSON.stringify] *)
Context (stringify : JsValue -> string).

(** *** [JSONIFY_groupname_key_value_pairings] *)

(** [v === null || v === undefined || v.toString().trim() === ""] *)
Definition blank_value (v : JsValue) : bool :=
  match v with
  | JNull | JUndefined => true
  | _ => String.eqb (trim rt (ToString rt v)) ""
  end.

(** The loop [for (var i = 1; i < row.length; i += 2)] over the cells after
    the group name. *)
Fixpoint pair_cells (cells : list JsValue) (obj : JsObject) : JsObject :=
  match cells with
  | [] => obj
  | key :: rest =>
      if blank_value key then obj
      else
        match rest with
        | [] => Obj.set obj (ToString rt key) JNull
        | value :: rest' => pair_cells rest' (Obj.set obj (ToString rt key) value)
        end
  end.

(** What the custom function returns: an error text, or the object that it
    hands to [JSON.stringify]. *)
Definition jsonify_result (inputRange : list (list JsValue)) : string + JsValue :=
  match inputRange with
  | [] => inl "Error: Input range must contain at least one row."
  | row :: _ =>
      match row with
      | [] => inl "Error: Input row must contain at least one cell for the group name."
      | groupName :: cells =>
          if blank_value groupName then inl "Error: Group name (first cell) is blank."
          else inr (JObj (Obj.set [] (ToString rt groupName) (JObj (pair_cells cells []))))
      end
  end.

Definition JSONIFY_groupname_key_value_pairings (inputRange : list (list JsValue))
  : string :=
  match jsonify_result inputRange with
  | inl message => message
  | inr result => stringify result
  end.

(** *** Deactivation: [getActiveLineItemIds], [deactivateAllActiveLineItems] *)

(** On the parsed body of the response to the query for active items. *)
Definition getActiveLineItemIds (json : JsValue) : Result (list JsValue) :=
  records <- prop json "records" ;;
  if negb (truthy records) then
    Throw ("No records found or error in query: " ++ stringify json)%string
  else
    match records with
    | JArr l => map_result (fun record => prop record "Id") l
    | _ => Throw "json.records.map is not a function"
    end.

(** [{ attributes: { type: ... }, Id: recordId, Active__c: false }] *)
Definition deactivation_record (recordId : JsValue) : JsObject :=
  [attributes; ("Id", recordId); ("Active__c", JBool false)].

(** The records of the update request. *)
Definition deactivateAllActiveLineItems (json : JsValue) : Result (list JsObject) :=
  activeLineItemIds <- getActiveLineItemIds json ;;
  Ok (map deactivation_record activeLineItemIds).

(** The variant that patches the records one by one: the ids it sends a
    PATCH for, in order, or the early return when the body holds no array.
    The responses to the PATCH requests are not part of the model. *)
Inductive Patched : Type :=
| NoRecords (queryBody : JsValue)
| PatchedIds (ids : list JsValue).

Definition deactivateAllActiveLineItems_dep (queryBody : JsValue) : Result Patched :=
  records <- prop queryBody "records" ;;
  if negb (truthy records) || negb (isArray records) then Ok (NoRecords queryBody)
  else
    match records with
    | JArr l =>
        ids <- map_result (fun record => prop record "Id") l ;;
        Ok (PatchedIds ids)
    | _ => Ok (NoRecords queryBody)
    end.

(** *** The variant of [createLineItems] that posts the items one by one *)


(** *** The requests of a run of [processOliRecords] *)

(** The records of the update request of step 3 and of the create request
    of step 6, given the table, the bodies of the responses to the two
    queries, the outcome [updateResponse] of sending the update request
    and parsing its response, and the outcome [token] of the token
    exchange of [createLineItems]. *)
Definition processOliRecords_requests (updateResponse token : Result JsValue)
  (oliData : list JsObject) (activeBody revisionBody : JsValue)
  : Result (list JsObject * list JsObject) :=
  _ <- parentId oliData ;;
  deactivation <- deactivateAllActiveLineItems activeBody ;;
  _ <- updateResponse ;;
  insertion <- processOliRecords rt token oliData revisionBody ;;
  Ok (deactivation, insertion).

End Services.

(** *** The log: [logMessage], [flushLogs] *)

(** A cell of the log sheet: a [Date], or a value. *)
Inductive LogCell : Type :=
| Stamp (time : nat)
| Text (value : JsValue).

(** The globals [DEBUG_MODE] and [logBuffer], the execution log of
    [Logger], and the rows of the sheet [JF_SCRIPT_LOG] when it exists. *)
Record LogState : Type := {
  DEBUG_MODE : bool;
  Logger_log : list JsValue;
  JF_SCRIPT_LOG : option (list (list LogCell));
  logBuffer : list (nat * JsValue)
}.

(** [getSheetByName], and [insertSheet] with the header row when the sheet
    does not exist. *)
Definition log_sheet (st : LogState) : list (list LogCell) :=
  match JF_SCRIPT_LOG st with
  | Some rows => rows
  | None => [[Text (JStr "Timestamp"); Text (JStr "Message")]]
  end.

Definition log_row (entry : nat * JsValue) : list LogCell :=
  [Stamp (fst entry); Text (snd entry)].

(** [timestamp] and [buffered] are what the two [new Date()] return. *)
Definition logMessage (timestamp buffered : nat) (message : JsValue) (st : LogState)
  : LogState :=
  let st1 :=
    if DEBUG_MODE st then
      {| DEBUG_MODE := DEBUG_MODE st;
         Logger_log := Logger_log st ++ [message];
         JF_SCRIPT_LOG := Some (log_sheet st ++ [log_row (timestamp, message)]);
         logBuffer := logBuffer st |}
    else st in
  {| DEBUG_MODE := DEBUG_MODE st1;
     Logger_log := Logger_log st1;
     JF_SCRIPT_LOG := JF_SCRIPT_LOG st1;
     logBuffer := logBuffer st1 ++ [(buffered, message)] |}.

Definition flushLogs (st : LogState) : LogState :=
  match logBuffer st with
  | [] => st
  | _ :: _ =>
      {| DEBUG_MODE := DEBUG_MODE st;
         Logger_log := Logger_log st;
         JF_SCRIPT_LOG := Some (log_sheet st ++ map log_row (logBuffer st));
         logBuffer := [] |}
  end.

(** A sequence of calls of [logMessage], each with its two times. *)
Definition log_all (calls : list (nat * nat * JsValue)) (st : LogState) : LogState :=
  fold_left (fun s c => logMessage (fst (fst c)) (snd (fst c)) (snd c) s) calls st.

(** *** Further values for the examples *)

Module Examples.

Definition quote (s : string) : string :=
  (String (ascii_of_nat 34) s ++ String (ascii_of_nat 34) "")%string.

(** A serialiser for the values of the examples: no escapes, and the
    numbers as [Sample.to_string] prints them. *)
Fixpoint stringify (v : JsValue) : string :=
  match v with
  | JUndefined | JNull => "null"
  | JBool true => "true"
  | JBool false => "false"
  | JNum x => Sample.to_string x
  | JStr s => quote s
  | JArr items =>
      ("[" ++ (fix elements (l : list JsValue) : string :=
                 match l with
                 | [] => ""
                 | [x] => stringify x
                 | x :: r => stringify x ++ "," ++ elements r
                 end) items ++ "]")%string
  | JObj props =>
      ("{" ++ (fix members (l : list (string * JsValue)) : string :=
                 match l with
                 | [] => ""
                 | [(k, x)] => quote k ++ ":" ++ stringify x
                 | (k, x) :: r => quote k ++ ":" ++ stringify x ++ "," ++ members r
                 end) props ++ "}")%string
  end.

(** The response to the query for active items: two records. *)
Definition response_two_active : JsValue :=
  JObj [("totalSize", JNum 2); ("done", JBool true);
        ("records", JArr [JObj [attributes; ("Id", JStr "a1B01")];
                          JObj [attributes; ("Id", JStr "a1B02")]])].

(** The response to a query that the store rejects. *)
Definition response_error : JsValue :=
  JArr [JObj [("message", JStr "Session expired or invalid");
              ("errorCode", JStr "INVALID_SESSION_ID")]].

(** A log with its sheet and nothing buffered, in debug mode. *)
Definition log_open : LogState :=
  {| DEBUG_MODE := true;
     Logger_log := [];
     JF_SCRIPT_LOG := Some [[Text (JStr "Timestamp"); Text (JStr "Message")]];
     logBuffer := [] |}.

(** A log without a sheet. *)
Definition log_absent : LogState :=
  {| DEBUG_MODE := true; Logger_log := []; JF_SCRIPT_LOG := None; logBuffer := [] |}.

End Examples.

(** *** Vocabulary of the further properties *)

(** A parsed cell none of whose keys is a name on which the loop over the
    keys depends: [hasOwnProperty], which the loop calls on [params], and
    [__proto__], the assignment to which is outside the model. *)
Definition plain_keys (parsed : JsValue) : bool :=
  negb (Obj.has (enumerable parsed) "hasOwnProperty")
  && negb (Obj.has (enumerable parsed) "__proto__").

(** A cell that the loader skips, or parses to a value with plain keys. *)
Definition blank_or_plain (rt : Runtime) (row : list JsValue) : Prop :=
  cell_text rt row = "" \/
  exists parsed, JSON_parse rt (cell_text rt row) = Ok parsed /\ plain_keys parsed = true.

(** A row whose cells are scalars. *)
Definition scalar_row (row : list JsValue) : Prop :=
  Forall (fun v => is_object v = false) row.

(** A field of a built record: a cell, or a group of cells. *)
Definition cell_or_group (v : JsValue) : Prop :=
  is_object v = false \/ exists o, v = JObj o /\ scalar_only o.

(** The cells of a row after the group name, from its key/value pairs. *)
Definition cells_of (pairs : list (JsValue * JsValue)) : list JsValue :=
  flat_map (fun p => [fst p; snd p]) pairs.


(** The rows that [logMessage] appends at once, and those that [flushLogs]
    writes from the buffer. *)
Definition immediate_rows (calls : list (nat * nat * JsValue)) : list (list LogCell) :=
  map (fun c => log_row (fst (fst c), snd c)) calls.

Definition buffered_rows (calls : list (nat * nat * JsValue)) : list (list LogCell) :=
  map (fun c => log_row (snd (fst c), snd c)) calls.

(** * Properties *)

(** ** Reading after writing *)

Section ObjFacts.
Context {A : Type}.
Implicit Types (o : Props A) (k : string) (v : A).

Lemma get_own_replace_eq o k v :
  Obj.has o k = true -> Obj.get_own (Obj.replace o k v) k = Some v.
Proof.
  unfold Obj.has. induction o as [|[k' v'] r IH]; simpl; [discriminate|].
  destruct (String.eqb k' k) eqn:E; simpl; rewrite E; auto.
Qed.

Lemma get_own_replace_neq o k k' v :
  k' <> k -> Obj.get_own (Obj.replace o k v) k' = Obj.get_own o k'.
Proof.
  intros N. induction o as [|[k0 v0] r IH]; simpl; [reflexivity|].
  destruct (String.eqb k0 k) eqn:E; simpl.
  - apply String.eqb_eq in E. subst k0.
    apply not_eq_sym, String.eqb_neq in N. rewrite N. reflexivity.
  - rewrite IH. reflexivity.
Qed.

Lemma get_own_create_eq o k v :
  Obj.get_own o k = None -> Obj.get_own (Obj.create o k v) k = Some v.
Proof.
  induction o as [|[k' v'] r IH]; simpl.
  - rewrite String.eqb_refl. reflexivity.
  - destruct (String.eqb k' k) eqn:E; [discriminate|]. intros H.
    destruct (Obj.before k k'); simpl.
    + rewrite String.eqb_refl. reflexivity.
    + rewrite E. auto.
Qed.

Lemma get_own_create_neq o k k' v :
  k' <> k -> Obj.get_own (Obj.create o k v) k' = Obj.get_own o k'.
Proof.
  intros N. apply not_eq_sym in N. apply String.eqb_neq in N.
  induction o as [|[k0 v0] r IH]; simpl.
  - rewrite N. reflexivity.
  - destruct (Obj.before k k0); simpl.
    + rewrite N. reflexivity.
    + rewrite IH. reflexivity.
Qed.

Lemma get_own_set_eq o k v : Obj.get_own (Obj.set o k v) k = Some v.
Proof.
  unfold Obj.set. destruct (Obj.has o k) eqn:H.
  - apply get_own_replace_eq, H.
  - apply get_own_create_eq. unfold Obj.has in H.
    destruct (Obj.get_own o k); [discriminate|reflexivity].
Qed.

Lemma get_own_set_neq o k k' v :
  k' <> k -> Obj.get_own (Obj.set o k v) k' = Obj.get_own o k'.
Proof.
  intros N. unfold Obj.set. destruct (Obj.has o k).
  - apply get_own_replace_neq, N.
  - apply get_own_create_neq, N.
Qed.

Lemma get_own_set o k k' v :
  Obj.get_own (Obj.set o k v) k' =
  if String.eqb k k' then Some v else Obj.get_own o k'.
Proof.
  destruct (String.eqb k k') eqn:E.
  - apply String.eqb_eq in E. subst. apply get_own_set_eq.
  - apply String.eqb_neq in E. apply get_own_set_neq. congruence.
Qed.

End ObjFacts.

(** ** Well-formed property tables *)

Section WfFacts.
Context {A : Type}.
Implicit Types (o : Props A) (k : string) (v : A).

Lemma get_own_none o k : Obj.get_own o k = None <-> ~ In k (Obj.keys o).
Proof.
  induction o as [|[k' v'] r IH]; cbn; [tauto|].
  destruct (String.eqb k' k) eqn:E.
  - apply String.eqb_eq in E. subst. split; [discriminate|tauto].
  - apply String.eqb_neq in E. rewrite IH. tauto.
Qed.

Lemma keys_replace o k v : Obj.keys (Obj.replace o k v) = Obj.keys o.
Proof.
  induction o as [|[k' v'] r IH]; [reflexivity|]. cbn.
  destruct (String.eqb k' k); cbn; [reflexivity|]. f_equal. exact IH.
Qed.

Lemma keys_create o k v : Permutation (Obj.keys (Obj.create o k v)) (k :: Obj.keys o).
Proof.
  induction o as [|[k' v'] r IH]; [reflexivity|]. cbn.
  destruct (Obj.before k k'); cbn; [reflexivity|].
  rewrite IH. apply perm_swap.
Qed.

Lemma before_trans k k' y :
  Obj.before k k' = true ->
  y = k' \/ Obj.before y k' = false ->
  Obj.before y k = false.
Proof.
  unfold Obj.before.
  destruct (Obj.array_index k) as [a|]; [|discriminate].
  intros B [->|Y].
  - destruct (Obj.array_index k') as [c|]; [|reflexivity].
    apply N.ltb_lt in B. apply N.ltb_ge. lia.
  - destruct (Obj.array_index y) as [c|]; [|reflexivity].
    destruct (Obj.array_index k') as [d|]; [|discriminate].
    apply N.ltb_lt in B. apply N.ltb_ge in Y. apply N.ltb_ge. lia.
Qed.

Lemma create_sorted o k v :
  StronglySorted (fun k k' => Obj.before k' k = false) (Obj.keys o) ->
  StronglySorted (fun k k' => Obj.before k' k = false) (Obj.keys (Obj.create o k v)).
Proof.
  induction o as [|[k' v'] r IH]; intros S; cbn.
  - constructor; constructor.
  - cbn in S. inversion S as [|? ? S' F]; subst.
    destruct (Obj.before k k') eqn:B; cbn.
    + constructor; [exact S|]. constructor.
      * apply (before_trans k k' k' B). left. reflexivity.
      * rewrite Forall_forall in F |- *. intros y Hy.
        apply (before_trans k k' y B). right. apply F, Hy.
    + constructor; [apply IH, S'|].
      rewrite Forall_forall in F |- *. intros y Hy.
      apply (Permutation_in _ (keys_create r k v)) in Hy.
      destruct Hy as [<-|Hy]; [exact B|apply F, Hy].
Qed.

Lemma set_wf o k v : Obj.wf o -> Obj.wf (Obj.set o k v).
Proof.
  intros [ND S]. unfold Obj.set, Obj.wf, Obj.has.
  destruct (Obj.get_own o k) eqn:G.
  - rewrite keys_replace. split; assumption.
  - split; [|apply create_sorted, S].
    apply (Permutation_NoDup (Permutation_sym (keys_create o k v))).
    constructor; [apply get_own_none, G|exact ND].
Qed.

Lemma wf_nil : Obj.wf (@nil (string * A)).
Proof. split; constructor. Qed.

Lemma create_append o k v :
  Forall (fun k' => Obj.before k k' = false) (Obj.keys o) ->
  Obj.create o k v = o ++ [(k, v)].
Proof.
  induction o as [|[k' v'] r IH]; intros F; [reflexivity|].
  cbn in F. inversion F as [|? ? B F']; subst. cbn. rewrite B, IH by exact F'.
  reflexivity.
Qed.

Lemma create_named o k v :
  Obj.array_index k = None -> Obj.create o k v = o ++ [(k, v)].
Proof.
  intros N. apply create_append, Forall_forall. intros k' _.
  unfold Obj.before. rewrite N. reflexivity.
Qed.

Lemma sorted_before (R : string -> string -> Prop) l1 x l2 :
  StronglySorted R (l1 ++ x :: l2) -> Forall (fun y => R y x) l1.
Proof.
  induction l1 as [|y l1 IH]; intros S; [constructor|].
  cbn in S. inversion S as [|? ? S' F]; subst. constructor; [|apply IH, S'].
  rewrite Forall_forall in F. apply F, in_elt.
Qed.

Lemma set_append o k v l :
  Obj.wf (o ++ (k, v) :: l) -> Obj.set o k v = o ++ [(k, v)].
Proof.
  unfold Obj.wf, Obj.keys. rewrite map_app. cbn [map fst]. intros [ND S].
  unfold Obj.set, Obj.has.
  assert (G : Obj.get_own o k = None).
  { apply get_own_none. apply NoDup_remove_2 in ND. intros Hin. apply ND.
    apply in_or_app. left. exact Hin. }
  rewrite G. apply create_append. apply (sorted_before _ _ _ _ S).
Qed.

End WfFacts.

Lemma assign_all_id l : forall acc,
  Obj.wf (acc ++ l) -> fold_left assign l acc = acc ++ l.
Proof.
  induction l as [|[k v] l IH]; intros acc W; cbn [fold_left].
  - rewrite app_nil_r. reflexivity.
  - unfold assign at 2. cbn [fst snd]. rewrite (set_append acc k v l W).
    rewrite IH; rewrite <- app_assoc; [reflexivity|exact W].
Qed.

Lemma assign_all_wf l : forall acc, Obj.wf acc -> Obj.wf (fold_left assign l acc).
Proof.
  induction l as [|kv l IH]; intros acc W; [exact W|].
  cbn [fold_left]. apply IH, set_wf, W.
Qed.

Lemma flat_key_wf acc kv : Obj.wf acc -> Obj.wf (flat_key acc kv).
Proof.
  destruct kv as [key value]. unfold flat_key. intros W.
  destruct (is_object value); [apply assign_all_wf, W|apply set_wf, W].
Qed.

Lemma flat_record_wf record : Obj.wf (flat_record record).
Proof.
  unfold flat_record. generalize (@wf_nil JsValue).
  generalize (@nil (string * JsValue)).
  induction record as [|kv r IH]; intros acc W; [exact W|].
  cbn [fold_left]. apply IH, flat_key_wf, W.
Qed.

(** ** RecordFlattener: idempotence *)

Lemma flatten_scalars record : forall acc,
  scalar_only record ->
  fold_left flat_key record acc = fold_left assign record acc.
Proof.
  induction record as [|[key value] r IH]; intros acc F; [reflexivity|].
  inversion F as [|? ? Hv F']; subst. cbn [fold_left flat_key snd] in *.
  rewrite Hv. apply IH, F'.
Qed.

Lemma set_scalar (o : JsObject) k v :
  scalar_only o -> is_object v = false -> scalar_only (Obj.set o k v).
Proof.
  unfold scalar_only, Obj.set. intros F Hv. destruct (Obj.has o k).
  - induction o as [|[k' v'] r IH]; [constructor|].
    inversion F; subst. cbn. destruct (String.eqb k' k); constructor; auto.
  - induction o as [|[k' v'] r IH]; cbn; [repeat constructor; exact Hv|].
    inversion F; subst. destruct (Obj.before k k'); repeat constructor; auto.
Qed.

Lemma assign_all_scalar l : forall acc,
  scalar_only acc -> scalar_only l -> scalar_only (fold_left assign l acc).
Proof.
  induction l as [|[k v] l IH]; intros acc Fa Fl; [exact Fa|].
  inversion Fl; subst. cbn [fold_left]. apply IH; [|assumption].
  apply set_scalar; assumption.
Qed.

Lemma flat_record_fixed record :
  scalar_only record -> flat_record (flat_record record) = flat_record record.
Proof.
  intros F. unfold flat_record at 1.
  assert (Fs : scalar_only (flat_record record)).
  { unfold flat_record. rewrite flatten_scalars by exact F.
    apply assign_all_scalar; [constructor|exact F]. }
  rewrite flatten_scalars by exact Fs.
  apply (assign_all_id (flat_record record) []), flat_record_wf.
Qed.

Lemma has_set {A} (o : Props A) k k' v :
  Obj.has (Obj.set o k v) k' = String.eqb k k' || Obj.has o k'.
Proof.
  unfold Obj.has. rewrite get_own_set. destruct (String.eqb k k'); reflexivity.
Qed.

Lemma has_assign_all l k : forall acc,
  Obj.has (fold_left assign l acc) k = Obj.has acc k || Obj.has l k.
Proof.
  induction l as [|[k0 v0] l IH]; intros acc; cbn [fold_left].
  - unfold Obj.has. cbn [Obj.get_own]. destruct (Obj.get_own acc k); reflexivity.
  - rewrite IH. unfold assign. cbn [fst snd]. rewrite has_set.
    unfold Obj.has. cbn [Obj.get_own].
    destruct (String.eqb k0 k); destruct (Obj.get_own acc k);
      destruct (Obj.get_own l k); reflexivity.
Qed.

Lemma has_flatten record k : forall acc,
  Obj.has (fold_left flat_key record acc) k =
  Obj.has acc k || existsb (fun kv => overwrites kv k) record.
Proof.
  induction record as [|[key value] r IH]; intros acc; cbn [fold_left existsb].
  - rewrite orb_false_r. reflexivity.
  - rewrite IH. unfold flat_key, overwrites. cbn [fst snd].
    destruct (is_object value).
    + rewrite has_assign_all, orb_assoc. reflexivity.
    + rewrite has_set, orb_assoc. f_equal. apply orb_comm.
Qed.

Lemma set_values {A} (Q : A -> Prop) (o : Props A) k v :
  Forall (fun kv => Q (snd kv)) o -> Q v ->
  Forall (fun kv => Q (snd kv)) (Obj.set o k v).
Proof.
  unfold Obj.set. intros F Hv. destruct (Obj.has o k).
  - induction o as [|[k' v'] r IH]; [constructor|].
    inversion F; subst. cbn. destruct (String.eqb k' k); constructor; auto.
  - induction o as [|[k' v'] r IH]; cbn; [repeat constructor; exact Hv|].
    inversion F; subst. destruct (Obj.before k k'); repeat constructor; auto.
Qed.

Lemma index_scalar row c : scalar_row row -> is_object (index row c) = false.
Proof.
  unfold scalar_row, index. intros F. revert c.
  induction F as [|v row Hv F IH]; intros [|c]; cbn; auto.
Qed.

Lemma build_record_shape rt m row :
  scalar_row row ->
  Forall (fun kv => cell_or_group (snd kv)) (build_record rt m row).
Proof.
  intros S. unfold build_record.
  generalize (Forall_nil (fun kv : string * JsValue => cell_or_group (snd kv))).
  generalize (@nil (string * JsValue)).
  induction m as [|[group mappings] m IH]; intros record F; [exact F|].
  cbn [fold_left]. apply IH. unfold assign_group.
  destruct mappings as [|m0 [|m1 ms]]; [exact F| |].
  - apply set_values; [exact F|]. left. apply index_scalar, S.
  - apply set_values; [exact F|]. right. eexists. split; [reflexivity|].
    generalize (m0 :: m1 :: ms). intros l.
    generalize (Forall_nil (fun kv : string * JsValue => is_object (snd kv) = false)).
    generalize (@nil (string * JsValue)).
    induction l as [|x l IHl]; intros nested Fn; [exact Fn|].
    cbn [fold_left]. apply IHl. apply set_scalar; [exact Fn|apply index_scalar, S].
Qed.

Lemma flatten_shape record : forall acc,
  Forall (fun kv => cell_or_group (snd kv)) record ->
  scalar_only acc -> scalar_only (fold_left flat_key record acc).
Proof.
  induction record as [|[key value] r IH]; intros acc F Sa; [exact Sa|].
  inversion F as [|? ? Hv F']; subst. cbn [fold_left snd] in *. apply IH; [exact F'|].
  unfold flat_key. destruct Hv as [Hv|[o [-> So]]].
  - rewrite Hv. apply set_scalar; assumption.
  - cbn [is_object enumerable]. apply assign_all_scalar; assumption.
Qed.

Lemma flatten_fixed_point f :
  Obj.wf f -> scalar_only f -> flat_record f = f.
Proof.
  intros W S. unfold flat_record. rewrite flatten_scalars by exact S.
  apply (assign_all_id f []). exact W.
Qed.

(** *** [formatOLIs] and its calls of [hasOwnProperty] *)

Lemma has_in {A} (o : Props A) kv : In kv o -> Obj.has o (fst kv) = true.
Proof.
  unfold Obj.has. induction o as [|[k v] r IH]; cbn; [intros []|].
  intros [<-|H]; cbn.
  - rewrite String.eqb_refl. reflexivity.
  - destruct (String.eqb k (fst kv)); [reflexivity|apply IH, H].
Qed.

Lemma has_absent {A} (o : Props A) k :
  Obj.has o k = false -> forall kv, In kv o -> String.eqb (fst kv) k = false.
Proof.
  unfold Obj.has. induction o as [|[k0 v0] r IH]; cbn; [intros _ ? []|].
  destruct (String.eqb k0 k) eqn:E; [discriminate|].
  intros H kv [<-|I]; [exact E|apply IH; assumption].
Qed.

Lemma flatten_nested_run value l : forall acc,
  (forall o, value = JObj o ->
             plain o = true /\ forall nkv, In nkv l -> In nkv o) ->
  fold_result (flatten_nested value) l acc = Ok (fold_left assign l acc).
Proof.
  induction l as [|nkv l IH]; intros acc H; [reflexivity|].
  cbn [fold_result fold_left]. unfold flatten_nested at 1.
  destruct value as [| | | | | |o];
    try (cbn [bind]; apply IH; intros ? E; discriminate E).
  destruct (H o eq_refl) as [P I]. unfold hasOwnProperty.
  unfold plain in P. apply negb_true_iff in P. rewrite P. cbn [bind].
  rewrite (has_in o nkv (I nkv (or_introl eq_refl))). apply IH.
  intros o' [= <-]. split; [unfold plain; rewrite P; reflexivity|].
  intros nkv' I'. apply I. right. exact I'.
Qed.

Lemma flatten_nested_throws o acc :
  plain o = false ->
  exists message, fold_result (flatten_nested (JObj o)) (enumerable (JObj o)) acc
                  = Throw message.
Proof.
  unfold plain. intros P. apply negb_false_iff in P. cbn [enumerable].
  destruct o as [|nkv o]; [discriminate P|].
  cbn [fold_result]. unfold flatten_nested at 1, hasOwnProperty.
  rewrite P. cbn [bind]. eauto.
Qed.

Lemma flatten_keys_run record l : forall acc,
  plain record = true -> (forall kv, In kv l -> In kv record) ->
  groups_plain l = true ->
  fold_result (flatten_key record) l acc = Ok (fold_left flat_key l acc).
Proof.
  induction l as [|[key value] l IH]; intros acc P I G; [reflexivity|].
  cbn [fold_result fold_left]. unfold groups_plain in G. cbn [forallb snd] in G.
  apply andb_true_iff in G. destruct G as [Gv G].
  unfold flatten_key at 1, hasOwnProperty.
  pose proof P as P'. unfold plain in P'. apply negb_true_iff in P'. rewrite P'.
  cbn [bind]. pose proof (has_in record (key, value) (I _ (or_introl eq_refl))) as Hk.
  cbn [fst] in Hk. rewrite Hk.
  assert (Step : (if is_object value
                  then fold_result (flatten_nested value) (enumerable value) acc
                  else Ok (Obj.set acc key value))
                 = Ok (flat_key acc (key, value))).
  { unfold flat_key. destruct (is_object value); [|reflexivity].
    apply flatten_nested_run. intros o ->. split; [exact Gv|]. intros nkv H. exact H. }
  rewrite Step. cbn [bind]. apply IH; [exact P| |exact G].
  intros kv H. apply I. right. exact H.
Qed.

Lemma flatten_keys_throw record l : forall acc,
  l <> [] -> (forall kv, In kv l -> In kv record) ->
  plain record && groups_plain l = false ->
  exists message, fold_result (flatten_key record) l acc = Throw message.
Proof.
  induction l as [|[key value] l IH]; intros acc N I B; [congruence|].
  cbn [fold_result]. unfold flatten_key at 1, hasOwnProperty.
  destruct (plain record) eqn:P.
  - pose proof P as P'. unfold plain in P'. apply negb_true_iff in P'. rewrite P'.
    cbn [bind andb] in *.
    pose proof (has_in record (key, value) (I _ (or_introl eq_refl))) as Hk.
    cbn [fst] in Hk. rewrite Hk.
    unfold groups_plain in B. cbn [forallb snd] in B.
    assert (Next : groups_plain l = false ->
                   forall acc', exists message,
                     fold_result (flatten_key record) l acc' = Throw message).
    { intros G acc'. apply IH.
      - intros ->. discriminate G.
      - intros kv H. apply I. right. exact H.
      - exact G. }
    destruct value as [| | | | |items|o]; cbn [is_object];
      try (cbn [bind]; apply Next; exact B).
    + rewrite flatten_nested_run by (intros ? E; discriminate E).
      cbn [bind]. apply Next. exact B.
    + destruct (plain o) eqn:Po.
      * rewrite flatten_nested_run
          by (intros o' [= <-]; split; [exact Po|intros nkv H; exact H]).
        cbn [bind]. apply Next. exact B.
      * destruct (flatten_nested_throws o acc Po) as [message ->]. cbn [bind]. eauto.
  - unfold plain in P. apply negb_false_iff in P. rewrite P. cbn [bind]. eauto.
Qed.

Lemma flatten_record_returns record :
  flattens record = true -> flatten_record record = Ok (flat_record record).
Proof.
  unfold flatten_record, flat_record. destruct record as [|kv r]; [reflexivity|].
  unfold flattens. intros F. apply andb_true_iff in F. destruct F as [P G].
  apply flatten_keys_run; auto.
Qed.

Lemma flatten_record_throws record :
  flattens record = false -> exists message, flatten_record record = Throw message.
Proof.
  unfold flatten_record. destruct record as [|kv r]; [discriminate|].
  unfold flattens. intros F. apply flatten_keys_throw; [discriminate|auto|exact F].
Qed.

Lemma flatten_record_ok record flat :
  flatten_record record = Ok flat -> flattens record = true /\ flat = flat_record record.
Proof.
  intros H. destruct (flattens record) eqn:F.
  - rewrite (flatten_record_returns record F) in H. injection H as <-. auto.
  - destruct (flatten_record_throws record F) as [message T]. congruence.
Qed.

Lemma formatOLIs_returns oliData :
  forallb flattens oliData = true -> formatOLIs oliData = Ok (map flat_record oliData).
Proof.
  unfold formatOLIs. induction oliData as [|record l IH]; [reflexivity|].
  cbn [forallb map_result map]. intros F. apply andb_true_iff in F. destruct F as [Fr Fl].
  rewrite (flatten_record_returns record Fr), (IH Fl). reflexivity.
Qed.

Lemma formatOLIs_throws oliData :
  forallb flattens oliData = false -> exists message, formatOLIs oliData = Throw message.
Proof.
  unfold formatOLIs. induction oliData as [|record l IH]; [discriminate|].
  cbn [forallb map_result]. destruct (flattens record) eqn:Fr.
  - cbn [andb]. intros Fl. rewrite (flatten_record_returns record Fr).
    destruct (IH Fl) as [message ->]. cbn [bind]. eauto.
  - intros _. destruct (flatten_record_throws record Fr) as [message ->]. cbn [bind]. eauto.
Qed.

Lemma formatOLIs_ok oliData formatted :
  formatOLIs oliData = Ok formatted ->
  forallb flattens oliData = true /\ formatted = map flat_record oliData.
Proof.
  intros H. destruct (forallb flattens oliData) eqn:F.
  - rewrite (formatOLIs_returns oliData F) in H. injection H as <-. auto.
  - destruct (formatOLIs_throws oliData F) as [message T]. congruence.
Qed.

(** A flattened record of cells and groups of cells can be flattened
    again. *)
Lemma flattens_flat record :
  Forall (fun kv => cell_or_group (snd kv)) record ->
  flattens record = true -> flattens (flat_record record) = true.
Proof.
  intros Shape F.
  assert (S : scalar_only (flat_record record))
    by (apply flatten_shape; [exact Shape|constructor]).
  assert (P : plain (flat_record record) = true).
  { unfold plain, flat_record. rewrite has_flatten. cbn [Obj.has Obj.get_own orb].
    apply negb_true_iff. destruct record as [|kv0 r0]; [reflexivity|].
    unfold flattens in F. apply andb_true_iff in F. destruct F as [Pr G].
    unfold plain in Pr. apply negb_true_iff in Pr.
    unfold groups_plain in G. rewrite forallb_forall in G.
    destruct (existsb (fun kv => overwrites kv "hasOwnProperty") (kv0 :: r0)) eqn:E;
      [|reflexivity].
    apply existsb_exists in E. destruct E as ([key value] & I & O).
    rewrite Forall_forall in Shape. specialize (Shape _ I). specialize (G _ I).
    unfold overwrites in O. cbn [fst snd] in *.
    destruct Shape as [Sv|[o [-> So]]].
    - rewrite Sv in O. pose proof (has_absent _ _ Pr _ I) as Hk. cbn [fst] in Hk.
      rewrite Hk in O. discriminate O.
    - cbn [is_object enumerable] in O. unfold plain in G. rewrite O in G. discriminate G. }
  unfold flattens. destruct (flat_record record) as [|kv r] eqn:E; [reflexivity|].
  rewrite P. cbn [andb]. unfold groups_plain. apply forallb_forall.
  intros [key value] I. unfold scalar_only in S. rewrite Forall_forall in S.
  specialize (S _ I). cbn [snd] in *. destruct value; try reflexivity; discriminate S.
Qed.

Lemma scalar_shape record :
  scalar_only record -> Forall (fun kv => cell_or_group (snd kv)) record.
Proof.
  unfold scalar_only. intros F. eapply Forall_impl; [|exact F].
  intros kv H. left. exact H.
Qed.

(** On records of cells and groups of cells, a second flattening changes
    nothing: neither the records, nor the exception. *)
Lemma formatOLIs_twice oliData :
  Forall (fun record => Forall (fun kv => cell_or_group (snd kv)) record) oliData ->
  (formatted <- formatOLIs oliData ;; formatOLIs formatted) = formatOLIs oliData.
Proof.
  intros F. destruct (formatOLIs oliData) as [formatted|message] eqn:R;
    cbn [bind]; [|reflexivity].
  apply formatOLIs_ok in R. destruct R as [Fl ->].
  rewrite Forall_forall in F. rewrite forallb_forall in Fl.
  rewrite formatOLIs_returns.
  - f_equal. rewrite map_map. apply map_ext_in.
    intros record I. apply flatten_fixed_point; [apply flat_record_wf|].
    apply flatten_shape; [apply F, I|constructor].
  - apply forallb_forall. intros flat I. apply in_map_iff in I.
    destruct I as (record & <- & I).
    apply flattens_flat; [apply F, I|apply Fl, I].
Qed.

(** C7.  On records all of whose top-level values are scalars (neither
    objects nor arrays), flattening twice gives what flattening once
    gives: the same records when [formatOLIs] returns, and the same
    exception when it throws, as it does on a record with a field named
    [hasOwnProperty]. *)
Theorem flatten_idempotent oliData :
  Forall scalar_only oliData ->
  (formatted <- formatOLIs oliData ;; formatOLIs formatted) = formatOLIs oliData.
Proof.
  intros F. apply formatOLIs_twice.
  eapply Forall_impl; [|exact F]. exact scalar_shape.
Qed.

Lemma flatten_idempotent_witness :
  (formatted <- formatOLIs
     [ [("Product__c", JStr "Widget"); ("Quantity__c", JNum 10);
        ("Active__c", JBool true); ("End_Date__c", JNull)] ] ;;
   formatOLIs formatted)
  = Ok [ [("Product__c", JStr "Widget"); ("Quantity__c", JNum 10);
          ("Active__c", JBool true); ("End_Date__c", JNull)] ].
Proof.
  rewrite flatten_idempotent; [reflexivity|].
  repeat constructor.
Defined.

(** ** ParameterAggregator *)

Lemma merge_key_get params k' value k :
  Obj.get_own (merge_key params (k', value)) k =
  if String.eqb k' k then Some (merged (Obj.get_own params k') value)
  else Obj.get_own params k.
Proof.
  unfold merge_key, aggregate_step, Obj.has. cbn [fst snd].
  destruct (Obj.get_own params k') as [cur|] eqn:G.
  - destruct (isArray cur) eqn:IA.
    + rewrite G. destruct cur; try discriminate. rewrite get_own_set. reflexivity.
    + rewrite get_own_set_eq.
      replace (merged (Some cur) value) with (JArr ([cur] ++ [value]))
        by (destruct cur; try reflexivity; discriminate).
      rewrite get_own_set.
      destruct (String.eqb k' k) eqn:E; [reflexivity|].
      apply String.eqb_neq in E. apply get_own_set_neq. congruence.
  - rewrite get_own_set. reflexivity.
Qed.




Lemma aggregate_key_ok params kv params' :
  aggregate_key params kv = Ok params' ->
  Obj.has params "hasOwnProperty" = false /\ params' = merge_key params kv.
Proof.
  unfold aggregate_key, hasOwnProperty, merge_key.
  destruct (Obj.has params "hasOwnProperty"); [discriminate|].
  cbn [bind]. intros [= <-]. auto.
Qed.

Lemma aggregate_keys_ok kvs : forall params params',
  fold_result aggregate_key kvs params = Ok params' ->
  params' = fold_left merge_key kvs params.
Proof.
  induction kvs as [|kv kvs IH]; intros params params'; cbn [fold_result fold_left].
  - intros [= <-]. reflexivity.
  - destruct (aggregate_key params kv) as [p|] eqn:A; [|discriminate].
    apply aggregate_key_ok in A. destruct A as [_ ->]. cbn [bind]. apply IH.
Qed.

Lemma aggregate_parsed_ok params parsed params' :
  aggregate_parsed params parsed = Ok params' -> params' = merge_parsed params parsed.
Proof. apply aggregate_keys_ok. Qed.

Lemma load_rows_ok rt rows : forall i params result,
  load_rows rt rows i params = Ok result ->
  result = fold_left merge_parsed (parsed_cells rt rows) params.
Proof.
  induction rows as [|row rest IH]; intros i params result; cbn [load_rows parsed_cells].
  - intros [= <-]. reflexivity.
  - destruct (String.eqb (cell_text rt row) ""); [apply IH|].
    destruct (JSON_parse rt (cell_text rt row)) as [parsed|]; cbn [bind]; [|discriminate].
    destruct (aggregate_parsed params parsed) as [params'|] eqn:A; [|discriminate].
    apply aggregate_parsed_ok in A. subst. cbn [fold_left]. apply IH.
Qed.

Lemma merge_key_wf params kv : Obj.wf params -> Obj.wf (merge_key params kv).
Proof.
  destruct kv as [key value]. unfold merge_key, aggregate_step. cbn [fst snd]. intros W.
  destruct (Obj.has params key); [|apply set_wf, W]. cbv zeta.
  destruct (Obj.get_own params key) as [cur|]; [destruct (isArray cur)|];
    match goal with
    | |- Obj.wf (match Obj.get_own ?o ?k with _ => _ end) =>
        assert (Obj.wf o) by (try apply set_wf; exact W);
        destruct (Obj.get_own o k) as [[| | | | |l|]|]; try assumption;
        apply set_wf; assumption
    end.
Qed.

(** The parameters that a load returns form a well-formed object. *)
Lemma load_wf rt data params :
  loadParametersFromJson rt data = Ok params -> Obj.wf params.
Proof.
  unfold loadParametersFromJson. destruct (Nat.ltb (length data) 1); [discriminate|].
  intros L. apply load_rows_ok in L. subst params.
  generalize (@wf_nil JsValue). generalize (@nil (string * JsValue)).
  induction (parsed_cells rt (skipn (startRow rt data) data)) as [|parsed objs IH];
    intros acc W; [exact W|].
  cbn [fold_left]. apply IH. unfold merge_parsed.
  clear IH. revert acc W. induction (enumerable parsed) as [|kv kvs IH]; intros acc W;
    [exact W|].
  cbn [fold_left]. apply IH, merge_key_wf, W.
Qed.

Lemma load_unfold rt data :
  data <> [] ->
  loadParametersFromJson rt data =
  load_rows rt (skipn (startRow rt data) data) (startRow rt data) [].
Proof.
  intros H. unfold loadParametersFromJson.
  destruct data; [congruence|reflexivity].
Qed.




Lemma load_rows_app rt pre rest : forall i params,
  load_rows rt (pre ++ rest) i params =
  (params' <- load_rows rt pre i params ;; load_rows rt rest (i + length pre) params').
Proof.
  induction pre as [|r pre IH]; intros i params; cbn [app load_rows length bind].
  - rewrite Nat.add_0_r. reflexivity.
  - replace (i + S (length pre)) with (S i + length pre) by lia.
    destruct (String.eqb (cell_text rt r) ""); [apply IH|].
    destruct (parsed <- JSON_parse rt (cell_text rt r) ;; aggregate_parsed params parsed);
      [apply IH|reflexivity].
Qed.

Lemma startRow_app rt pre rest : pre <> [] -> startRow rt (pre ++ rest) = startRow rt pre.
Proof. destruct pre; [congruence|reflexivity]. Qed.

Lemma startRow_bound rt data : data <> [] -> startRow rt data <= length data.
Proof.
  destruct data as [|row rest]; [congruence|]. intros _. unfold startRow. cbn [length].
  destruct (JSON_parse rt (cell_text rt row)); lia.
Qed.

(** When the rows above it load, a non-blank cell that is not valid JSON
    makes the load throw under the 1-based number of its row, with the
    message of the parser. *)
Lemma parse_failure_row rt pre row post message params :
  loadParametersFromJson rt pre = Ok params ->
  cell_text rt row <> "" ->
  JSON_parse rt (cell_text rt row) = Throw message ->
  loadParametersFromJson rt (pre ++ row :: post) =
  Throw ("Error parsing JSON at row " ++ nat_to_string (length pre + 1)
         ++ ": " ++ message)%string.
Proof.
  intros L NB PE.
  assert (N : pre <> []) by (intros ->; discriminate L).
  rewrite load_unfold in L by exact N.
  rewrite load_unfold by (destruct pre; [congruence|discriminate]).
  rewrite (startRow_app rt pre _ N).
  pose proof (startRow_bound rt pre N) as S.
  remember (startRow rt pre) as s eqn:Es. clear Es.
  rewrite skipn_app. replace (s - length pre) with 0 by lia. cbn [skipn].
  rewrite load_rows_app, L. cbn [bind load_rows].
  apply String.eqb_neq in NB. rewrite NB, PE. cbn [bind].
  rewrite length_skipn. replace (s + (length pre - s) + 1) with (length pre + 1) by lia.
  reflexivity.
Qed.

Example parse_failure_row_example :
  loadParametersFromJson Sample.runtime
    (Sample.rows_malformed_above ++ [JStr "{oli: Product}"] :: Sample.rows_malformed_below)
  = Throw "Error parsing JSON at row 4: Unexpected token".
Proof.
  apply (parse_failure_row Sample.runtime Sample.rows_malformed_above
           [JStr "{oli: Product}"] Sample.rows_malformed_below "Unexpected token"
           [("Input Sheet", JObj [("Name", JStr "Opp1")])]).
  - reflexivity.
  - discriminate.
  - reflexivity.
Qed.

(** C8.  The sheet [Sample.rows_shadowing] holds a malformed cell in row
    3, below two cells of valid JSON.  The load does not report it: the
    group named [hasOwnProperty] that row 1 stores hides the method that
    the loop calls on [params], the call throws at the first key of row 2,
    and the [catch] reports row 2, whose JSON is valid, with the message
    of that TypeError instead of the parser's. *)
Theorem parse_failure_misreported :
  let data := Sample.rows_shadowing in
  startRow Sample.runtime data = 0 /\
  (exists parsed,
      JSON_parse Sample.runtime (cell_text Sample.runtime (nth 1 data [])) = Ok parsed) /\
  JSON_parse Sample.runtime (cell_text Sample.runtime (nth 2 data []))
  = Throw "Unexpected token" /\
  loadParametersFromJson Sample.runtime data
  = Throw "Error parsing JSON at row 2: params.hasOwnProperty is not a function".
Proof.
  cbv zeta. split; [reflexivity|]. split; [eexists; reflexivity|].
  split; reflexivity.
Qed.

(** ** TableBuilder *)












(** ** ColumnMapper *)

Lemma find_header_some rt headerRow labelToFind : forall j0 j,
  find_header rt headerRow labelToFind j0 = Some j ->
  j0 <= j /\ first_match rt headerRow labelToFind (j - j0).
Proof.
  induction headerRow as [|cell rest IH]; intros j0 j; cbn [find_header]; [discriminate|].
  destruct (String.eqb (trim rt (ToString rt cell)) labelToFind) eqn:E.
  - intros [= <-]. split; [lia|]. rewrite Nat.sub_diag. split.
    + exists cell. split; [reflexivity|]. apply String.eqb_eq, E.
    + intros j' ? Hlt. lia.
  - intros H. apply IH in H. destruct H as (Hle & (c & Hc & Tc) & Hmin).
    split; [lia|]. replace (j - j0) with (S (j - S j0)) by lia. split.
    + exists c. split; [exact Hc|exact Tc].
    + intros [|j'] cell' Hlt Hn; cbn in Hn.
      * injection Hn as <-. apply String.eqb_neq, E.
      * apply (Hmin j'); [lia|exact Hn].
Qed.


(** The state of the group loop is an accumulator: an element adds to it
    what it adds to the empty state. *)
Lemma resolve_item_acc rt headerRow key m0 w0 item :
  resolve_item rt headerRow key (m0, w0) item =
  (r <- resolve_item rt headerRow key ([], []) item ;;
   Ok (m0 ++ fst r, w0 ++ snd r)).
Proof.
  unfold resolve_item.
  destruct (prop item "object_label") as [label|]; [|reflexivity]. cbn [bind].
  destruct (truthy label); cbn [negb bind fst snd]; [|rewrite !app_nil_r; reflexivity].
  destruct (prop item "object_api_name") as [apiName|]; [|reflexivity]. cbn [bind].
  destruct (truthy apiName); cbn [negb bind fst snd]; [|rewrite !app_nil_r; reflexivity].
  destruct (find_header rt headerRow _ 0); cbn [bind fst snd app];
    rewrite ?app_nil_r; reflexivity.
Qed.

Lemma resolve_group_acc rt headerRow key items : forall m0 w0,
  resolve_group rt headerRow key items (m0, w0) =
  (r <- resolve_group rt headerRow key items ([], []) ;;
   Ok (m0 ++ fst r, w0 ++ snd r)).
Proof.
  induction items as [|item rest IH]; intros m0 w0; cbn [resolve_group].
  - cbn. rewrite !app_nil_r. reflexivity.
  - rewrite resolve_item_acc.
    destruct (resolve_item rt headerRow key ([], []) item) as [[dm dw]|]; [|reflexivity].
    cbn [bind fst snd]. rewrite IH, (IH dm dw).
    destruct (resolve_group rt headerRow key rest ([], [])) as [[dm' dw']|]; [|reflexivity].
    cbn [bind fst snd]. rewrite !app_assoc. reflexivity.
Qed.

Lemma resolve_group_app rt headerRow key l1 : forall l2 st,
  resolve_group rt headerRow key (l1 ++ l2) st =
  (st' <- resolve_group rt headerRow key l1 st ;; resolve_group rt headerRow key l2 st').
Proof.
  induction l1 as [|item l1 IH]; intros l2 st; cbn [app resolve_group]; [reflexivity|].
  destruct (resolve_item rt headerRow key st item); [|reflexivity].
  cbn [bind]. apply IH.
Qed.



Lemma map_groups_log rt headerRow entries : forall om log om' log',
  map_groups rt headerRow entries om log = Ok (om', log') ->
  exists ext, log' = log ++ ext.
Proof.
  induction entries as [|[k gd] rest IH]; intros om log om' log'; cbn [map_groups].
  - intros [= _ <-]. exists []. rewrite app_nil_r. reflexivity.
  - destruct (reserved k); [apply IH|].
    rewrite resolve_group_acc.
    destruct (resolve_group rt headerRow k (groupArray gd) ([], [])) as [[dm dw]|];
      [|discriminate].
    cbn [bind fst snd app]. intros H. apply IH in H. destruct H as [ext ->].
    exists (dw ++ ext). rewrite app_assoc. reflexivity.
Qed.

Lemma map_groups_other rt headerRow key entries : forall om log om' log',
  ~ In key (Obj.keys entries) ->
  map_groups rt headerRow entries om log = Ok (om', log') ->
  Obj.get_own om' key = Obj.get_own om key.
Proof.
  induction entries as [|[k gd] rest IH]; intros om log om' log' Hk; cbn [map_groups].
  - intros [= <- _]. reflexivity.
  - cbn in Hk. destruct (reserved k); [apply IH; tauto|].
    destruct (resolve_group rt headerRow k (groupArray gd) ([], log)) as [st|];
      [|discriminate].
    cbn [bind]. intros H. apply IH in H; [|tauto].
    rewrite H. apply get_own_set_neq. intros ->. tauto.
Qed.

Lemma map_groups_key rt headerRow key gd P2 P1 : forall om log om' log',
  reserved key = false ->
  ~ In key (Obj.keys P2) ->
  map_groups rt headerRow (P1 ++ (key, gd) :: P2) om log = Ok (om', log') ->
  exists dm dw,
    resolve_group rt headerRow key (groupArray gd) ([], []) = Ok (dm, dw) /\
    Obj.get_own om' key = Some dm /\
    (forall w, In w dw -> In w log').
Proof.
  induction P1 as [|[k0 gd0] P1 IH]; intros om log om' log' R Hk; cbn [app map_groups].
  - rewrite R, resolve_group_acc.
    destruct (resolve_group rt headerRow key (groupArray gd) ([], [])) as [[dm dw]|];
      [|discriminate].
    cbn [bind fst snd app]. intros H. exists dm, dw. split; [reflexivity|]. split.
    + rewrite (map_groups_other _ _ _ _ _ _ _ _ Hk H). apply get_own_set_eq.
    + apply map_groups_log in H. destruct H as [ext ->]. intros w Hw.
      apply in_or_app. left. apply in_or_app. right. exact Hw.
  - destruct (reserved k0); [apply IH; assumption|].
    destruct (resolve_group rt headerRow k0 (groupArray gd0) ([], log)) as [st|];
      [|discriminate].
    cbn [bind]. apply IH; assumption.
Qed.


Lemma get_own_split {A} (o : Props A) k v :
  Obj.get_own o k = Some v ->
  exists P1 P2, o = P1 ++ (k, v) :: P2.
Proof.
  induction o as [|[k' v'] r IH]; cbn; [discriminate|].
  destruct (String.eqb k' k) eqn:E.
  - apply String.eqb_eq in E. subst. intros [= ->]. exists [], r. reflexivity.
  - intros H. destruct (IH H) as (P1 & P2 & ->). exists ((k', v') :: P1), P2. reflexivity.
Qed.





Lemma resolve_group_skip rt headerRow key item pre post : forall st,
  (forall st', resolve_item rt headerRow key st' item = Ok st') ->
  resolve_group rt headerRow key (pre ++ item :: post) st =
  resolve_group rt headerRow key (pre ++ post) st.
Proof.
  intros st Skip. rewrite !resolve_group_app.
  destruct (resolve_group rt headerRow key pre st) as [st'|]; [|reflexivity].
  cbn [bind resolve_group]. rewrite Skip. reflexivity.
Qed.

Lemma map_groups_congr rt headerRow key gd gd' P2 P1 : forall om log,
  (forall st, resolve_group rt headerRow key (groupArray gd) st =
              resolve_group rt headerRow key (groupArray gd') st) ->
  map_groups rt headerRow (P1 ++ (key, gd) :: P2) om log =
  map_groups rt headerRow (P1 ++ (key, gd') :: P2) om log.
Proof.
  induction P1 as [|[k0 gd0] P1 IH]; intros om log E; cbn [app map_groups].
  - rewrite E. reflexivity.
  - destruct (reserved k0); [apply IH, E|].
    destruct (resolve_group rt headerRow k0 (groupArray gd0) ([], log)); [|reflexivity].
    cbn [bind]. apply IH, E.
Qed.

Lemma resolve_item_falsy rt headerRow key o st :
  truthy (field o "object_label") = false \/
  truthy (field o "object_api_name") = false ->
  resolve_item rt headerRow key st (JObj o) = Ok st.
Proof.
  intros F. unfold resolve_item. cbn [prop bind].
  fold (field o "object_label") (field o "object_api_name").
  destruct (truthy (field o "object_label")); cbn [negb]; [|reflexivity].
  destruct F as [F|F]; [discriminate|]. rewrite F. reflexivity.
Qed.

(** C9.  An element of a group whose label or output name is falsy (the
    empty string, 0, [false], [null], or absent) leaves no trace: the
    mapper returns the mapping and the log it returns for the same
    parameters without that element. *)
Theorem falsy_entry_skipped rt headerRow P1 key pre o post P2 :
  truthy (field o "object_label") = false \/
  truthy (field o "object_api_name") = false ->
  buildOverallMapping rt (P1 ++ (key, JArr (pre ++ JObj o :: post)) :: P2) headerRow =
  buildOverallMapping rt (P1 ++ (key, JArr (pre ++ post)) :: P2) headerRow /\
  buildOverallMapping rt (P1 ++ (key, JObj o) :: P2) headerRow =
  buildOverallMapping rt (P1 ++ (key, JArr []) :: P2) headerRow.
Proof.
  intros F. unfold buildOverallMapping.
  split; apply map_groups_congr; intros st; cbn [groupArray].
  - apply resolve_group_skip. intros st'. apply resolve_item_falsy, F.
  - cbn [resolve_group]. rewrite resolve_item_falsy by exact F. reflexivity.
Qed.

Lemma falsy_values :
  truthy (JStr "") = false /\ truthy (JNum 0) = false /\
  truthy (JBool false) = false /\ truthy JNull = false /\
  truthy JUndefined = false.
Proof. repeat split. Qed.

Lemma falsy_entry_skipped_witness :
  let empty_label := [("object_label", JStr ""); ("object_api_name", JStr "Notes__c")] in
  buildOverallMapping Sample.runtime
    ([("Input Sheet", JObj [("Name", JStr "Opp1")])]
       ++ ("oli", JArr ([Sample.label "Product" "Product__c"]
                          ++ JObj empty_label :: [Sample.label "Qty" "Quantity__c"]))
       :: [])
    [JStr "Product"; JStr ""; JStr "Qty"]
  = Ok ([("oli", [ {| api := JStr "Product__c"; col := 0 |};
                   {| api := JStr "Quantity__c"; col := 2 |} ])], []).
Proof.
  cbv zeta.
  rewrite (proj1 (falsy_entry_skipped Sample.runtime _ _ "oli" _
                    [("object_label", JStr ""); ("object_api_name", JStr "Notes__c")]
                    _ _ (or_introl eq_refl))).
  reflexivity.
Defined.

(** ** Revision lookup *)

Lemma highest_of_empty rt body :
  prop body "records" = Ok (JArr []) ->
  getHighestRevisionNumber rt body = Ok (JNum 0).
Proof. intros P. unfold getHighestRevisionNumber. rewrite P. reflexivity. Qed.

Lemma highest_of_records rt body r0 rest :
  prop body "records" = Ok (JArr (JObj r0 :: rest)) ->
  getHighestRevisionNumber rt body =
  Ok (if truthy (field r0 "Version_Number__c") then field r0 "Version_Number__c"
      else JNum 0).
Proof. intros P. unfold getHighestRevisionNumber. rewrite P. reflexivity. Qed.

(** C10.  When the first record of the response holds [null], nothing or 0
    under [Version_Number__c], the lookup returns 0, as it does when the
    response holds no record, and the next revision is 1. *)
Theorem missing_revision_counts_as_none rt body r0 rest :
  prop body "records" = Ok (JArr (JObj r0 :: rest)) ->
  field r0 "Version_Number__c" = JNull \/
  field r0 "Version_Number__c" = JUndefined \/
  field r0 "Version_Number__c" = JNum 0 ->
  getHighestRevisionNumber rt body = Ok (JNum 0) /\
  getHighestRevisionNumber rt body =
    getHighestRevisionNumber rt (JObj [("records", JArr [])]) /\
  newRevision rt body = Ok (JNum 1).
Proof.
  intros P V.
  assert (H : getHighestRevisionNumber rt body = Ok (JNum 0)).
  { rewrite (highest_of_records rt body r0 rest P).
    destruct V as [-> | [-> | ->]]; reflexivity. }
  split; [exact H|]. split; [exact H|].
  unfold newRevision. rewrite H. reflexivity.
Qed.

Lemma missing_revision_counts_as_none_witness :
  newRevision Sample.runtime Sample.response_null_revision = Ok (JNum 1).
Proof.
  refine (proj2 (proj2 (missing_revision_counts_as_none Sample.runtime
                          Sample.response_null_revision
                          [attributes; ("Version_Number__c", JNull)] [] eq_refl _))).
  left. reflexivity.
Defined.

(** ** Submission *)

Lemma nth_error_store_eq (h : Heap) a o item :
  nth_error h a = Some item -> nth_error (store h a o) a = Some o.
Proof.
  revert a. induction h as [|x h IH]; intros [|a]; cbn; try discriminate; auto.
Qed.

Lemma nth_error_store_neq (h : Heap) a a' o :
  a <> a' -> nth_error (store h a o) a' = nth_error h a'.
Proof.
  revert a a'. induction h as [|x h IH]; intros [|a] [|a'] N; cbn; try reflexivity.
  - congruence.
  - apply IH. congruence.
Qed.

Lemma createLineItems_frame rt oppId lineItems : forall h h' records a,
  ~ In a lineItems ->
  createLineItems rt oppId h lineItems = Ok (h', records) ->
  nth_error h' a = nth_error h a.
Proof.
  induction lineItems as [|a0 rest IH]; intros h h' records a Hin; cbn [createLineItems].
  - intros [= <- _]. reflexivity.
  - unfold line_item_record. destruct (nth_error h a0) as [item0|]; [|discriminate].
    cbn [bind fst snd].
    destruct (createLineItems rt oppId _ rest) as [[h1 rs]|] eqn:C; [|discriminate].
    cbn [bind fst snd]. intros [= <- _].
    rewrite (IH _ _ _ a (fun H => Hin (or_intror H)) C).
    apply nth_error_store_neq. intros ->. apply Hin. left. reflexivity.
Qed.

(** Each listed object is updated once and copied into the request, as
    long as no object is listed twice. *)
Lemma createLineItems_nth rt oppId lineItems : forall h h' records,
  NoDup lineItems ->
  createLineItems rt oppId h lineItems = Ok (h', records) ->
  length records = length lineItems /\
  forall i a item,
    nth_error lineItems i = Some a -> nth_error h a = Some item ->
    nth_error records i = Some (spread [attributes] (update_item rt oppId item)) /\
    nth_error h' a = Some (update_item rt oppId item).
Proof.
  induction lineItems as [|a0 rest IH]; intros h h' records ND; cbn [createLineItems].
  - intros [= <- <-]. split; [reflexivity|]. intros [|i]; discriminate.
  - inversion ND as [|? ? Hnew ND']; subst.
    unfold line_item_record. destruct (nth_error h a0) as [item0|] eqn:H0; [|discriminate].
    cbn [bind fst snd].
    destruct (createLineItems rt oppId _ rest) as [[h1 rs]|] eqn:C; [|discriminate].
    cbn [bind fst snd]. intros [= <- <-].
    destruct (IH _ _ _ ND' C) as [L N]. split; [cbn; rewrite L; reflexivity|].
    intros [|i] a item Hi Ha; cbn in Hi.
    + injection Hi as <-. rewrite H0 in Ha. injection Ha as <-.
      split; [reflexivity|].
      rewrite (createLineItems_frame _ _ _ _ _ _ a0 Hnew C).
      apply (nth_error_store_eq _ _ _ _ H0).
    + apply (N i a item Hi). rewrite nth_error_store_neq; [exact Ha|].
      intros ->. apply Hnew. apply (nth_error_In _ _ Hi).
Qed.

Lemma get_own_assign_all l : forall init k,
  NoDup (Obj.keys l) ->
  Obj.get_own (fold_left assign l init) k =
  match Obj.get_own l k with
  | Some v => Some v
  | None => Obj.get_own init k
  end.
Proof.
  induction l as [|[k0 v0] l IH]; intros init k ND; [reflexivity|].
  cbn in ND. inversion ND as [|? ? Hk ND']; subst.
  cbn [fold_left Obj.get_own]. rewrite IH by exact ND'.
  unfold assign. cbn [fst snd]. rewrite get_own_set.
  destruct (String.eqb k0 k) eqn:E; [|reflexivity].
  apply String.eqb_eq in E. subst k0.
  apply get_own_none in Hk. rewrite Hk. reflexivity.
Qed.

Lemma update_item_wf rt oppId item : Obj.wf item -> Obj.wf (update_item rt oppId item).
Proof. intros W. unfold update_item. apply set_wf, set_wf, W. Qed.

Lemma get_own_request rt oppId item k v :
  Obj.wf item ->
  Obj.get_own (update_item rt oppId item) k = Some v ->
  Obj.get_own (spread [attributes] (update_item rt oppId item)) k = Some v.
Proof.
  intros W G. unfold spread. rewrite get_own_assign_all, G; [reflexivity|].
  apply (update_item_wf rt oppId item W).
Qed.

Lemma update_item_discount rt oppId item :
  Obj.get_own (update_item rt oppId item) "Sales_Discount__c" =
  Some (js_mul rt (JNum 100) (field item "Sales_Discount__c")).
Proof.
  unfold update_item. rewrite get_own_set_eq. unfold field.
  rewrite get_own_set_neq by discriminate. reflexivity.
Qed.

(** C6 (amended).  When the objects passed to [createLineItems] are
    pairwise distinct, the record placed in the request for each of them
    holds under [Sales_Discount__c] the product [100 * v] of the value [v]
    that the object held at the call, 100 times the number when [v] is a
    number, and the object itself ends up holding that same product. *)
Theorem discount_rescaled_once rt oppId h lineItems h' records :
  NoDup lineItems ->
  createLineItems rt oppId h lineItems = Ok (h', records) ->
  forall i a item,
    nth_error lineItems i = Some a -> nth_error h a = Some item -> Obj.wf item ->
    exists record item',
      nth_error records i = Some record /\
      nth_error h' a = Some item' /\
      Obj.get_own record "Sales_Discount__c" =
        Some (js_mul rt (JNum 100) (field item "Sales_Discount__c")) /\
      Obj.get_own item' "Sales_Discount__c" =
        Some (js_mul rt (JNum 100) (field item "Sales_Discount__c")) /\
      (forall x, field item "Sales_Discount__c" = JNum x ->
                 Obj.get_own record "Sales_Discount__c" = Some (JNum (100 * x))).
Proof.
  intros ND C i a item Hi Ha W.
  destruct (createLineItems_nth rt oppId lineItems h h' records ND C) as [_ N].
  destruct (N i a item Hi Ha) as [R H'].
  exists (spread [attributes] (update_item rt oppId item)), (update_item rt oppId item).
  assert (G := get_own_request rt oppId item _ _ W (update_item_discount rt oppId item)).
  repeat split; auto using update_item_discount.
  intros x Hx. rewrite G, Hx. reflexivity.
Qed.

Lemma discount_rescaled_once_witness :
  exists record item',
    nth_error
      [ [attributes; ("Product__c", JStr "Widget"); ("Sales_Discount__c", JNum 25);
         ("opportunity_id__c", JStr "006A")];
        [attributes; ("Product__c", JStr "Gadget"); ("opportunity_id__c", JStr "006A");
         ("Sales_Discount__c", JNum nan)] ] 0 = Some record /\
    nth_error
      [ [("Product__c", JStr "Widget"); ("Sales_Discount__c", JNum 25);
         ("opportunity_id__c", JStr "006A")];
        [("Product__c", JStr "Gadget"); ("opportunity_id__c", JStr "006A");
         ("Sales_Discount__c", JNum nan)] ] 0 = Some item' /\
    Obj.get_own record "Sales_Discount__c" =
      Some (js_mul Sample.runtime (JNum 100) (JNum 0.25)) /\
    Obj.get_own item' "Sales_Discount__c" =
      Some (js_mul Sample.runtime (JNum 100) (JNum 0.25)) /\
    (forall x, JNum 0.25 = JNum x ->
               Obj.get_own record "Sales_Discount__c" = Some (JNum (100 * x))).
Proof.
  refine (discount_rescaled_once Sample.runtime (JStr "006A")
            [ [("Product__c", JStr "Widget"); ("Sales_Discount__c", JNum 0.25)];
              [("Product__c", JStr "Gadget")] ]
            [0; 1] _ _ _ eq_refl 0 0
            [("Product__c", JStr "Widget"); ("Sales_Discount__c", JNum 0.25)]
            eq_refl eq_refl _).
  - repeat constructor; cbn; intuition discriminate.
  - split; cbn; repeat constructor; cbn; intuition discriminate.
Defined.

(** C6, as stated, fails for an object that is submitted twice: listed
    twice in one call, or passed to a second call, its second record in
    the request holds 5000 where the object as built held 0.5. *)
Lemma discount_rescaled_twice_counterexample :
  let item := [("Product__c", JStr "Widget"); ("Sales_Discount__c", JNum 0.5)] in
  field item "Sales_Discount__c" = JNum 0.5 /\
  js_mul Sample.runtime (JNum 100) (JNum 0.5) = JNum 50 /\
  (exists h' record1 record2,
     createLineItems Sample.runtime (JStr "006A") [item] [0; 0]
     = Ok (h', [record1; record2]) /\
     Obj.get_own record1 "Sales_Discount__c" = Some (JNum 50) /\
     Obj.get_own record2 "Sales_Discount__c" = Some (JNum 5000)) /\
  (exists h1 record1 h2 record2,
     createLineItems Sample.runtime (JStr "006A") [item] [0] = Ok (h1, [record1]) /\
     createLineItems Sample.runtime (JStr "006A") h1 [0] = Ok (h2, [record2]) /\
     Obj.get_own record1 "Sales_Discount__c" = Some (JNum 50) /\
     Obj.get_own record2 "Sales_Discount__c" = Some (JNum 5000)).
Proof.
  cbv zeta. split; [reflexivity|]. split; [reflexivity|]. split.
  - do 3 eexists. split; [reflexivity|]. split; reflexivity.
  - do 4 eexists. split; [reflexivity|]. split; [reflexivity|]. split; reflexivity.
Qed.

(** ** Stamping and flattening *)

Lemma get_own_assign_absent l k : forall acc,
  Obj.get_own l k = None ->
  Obj.get_own (fold_left assign l acc) k = Obj.get_own acc k.
Proof.
  induction l as [|[k0 v0] l IH]; intros acc; cbn [fold_left Obj.get_own]; [reflexivity|].
  destruct (String.eqb k0 k) eqn:E; [discriminate|]. intros G.
  rewrite IH by exact G. unfold assign. cbn [fst snd].
  apply String.eqb_neq in E. apply get_own_set_neq. congruence.
Qed.

Lemma flatten_keeps post k : forall acc,
  Forall (fun kv => overwrites kv k = false) post ->
  Obj.get_own (fold_left flat_key post acc) k = Obj.get_own acc k.
Proof.
  induction post as [|[key value] post IH]; intros acc F; [reflexivity|].
  inversion F as [|? ? O F']; subst. cbn [fold_left]. rewrite IH by exact F'.
  unfold overwrites in O. cbn [fst snd] in O. unfold flat_key.
  destruct (is_object value).
  - apply get_own_assign_absent. unfold Obj.has in O.
    destruct (Obj.get_own (enumerable value) k); [discriminate|reflexivity].
  - apply String.eqb_neq in O. apply get_own_set_neq. congruence.
Qed.

Lemma flatten_settled o k v :
  settled o k v -> is_object v = false ->
  Obj.get_own (flat_record o) k = Some v.
Proof.
  intros (pre & post & -> & F) S. unfold flat_record.
  rewrite fold_left_app. cbn [fold_left]. rewrite flatten_keeps by exact F.
  unfold flat_key. rewrite S. apply get_own_set_eq.
Qed.

Lemma existsb_false {A} (f : A -> bool) l :
  existsb f l = false -> Forall (fun x => f x = false) l.
Proof.
  induction l as [|x l IH]; cbn; [constructor|].
  intros H. apply orb_false_iff in H. destruct H. constructor; auto.
Qed.

Lemma replace_settles o k v :
  Obj.has o k = true -> shadowed o k = false -> settled (Obj.replace o k v) k v.
Proof.
  unfold Obj.has. induction o as [|[k' v'] r IH]; cbn; [discriminate|].
  destruct (String.eqb k' k) eqn:E.
  - apply String.eqb_eq in E. subst k'. intros _ S.
    exists [], r. split; [reflexivity|apply existsb_false, S].
  - intros H S. destruct (IH H S) as (pre & post & -> & F).
    exists ((k', v') :: pre), post. split; [reflexivity|exact F].
Qed.

Lemma set_named {A} (o : Props A) k v :
  Obj.array_index k = None ->
  Obj.set o k v = if Obj.has o k then Obj.replace o k v else o ++ [(k, v)].
Proof. intros N. unfold Obj.set. rewrite create_named by exact N. reflexivity. Qed.

Lemma stamp_settles o k v :
  Obj.array_index k = None -> shadowed o k = false -> settled (Obj.set o k v) k v.
Proof.
  intros N S. rewrite set_named by exact N. destruct (Obj.has o k) eqn:H.
  - apply replace_settles; assumption.
  - exists o, []. split; [reflexivity|constructor].
Qed.

Lemma replace_keeps (P : string * JsValue -> Prop) o k v :
  (forall k', String.eqb k' k = true -> P (k', v)) ->
  Forall P o -> Forall P (Obj.replace o k v).
Proof.
  intros Pv. induction o as [|[k' v'] r IH]; intros F; [constructor|].
  inversion F; subst. cbn. destruct (String.eqb k' k) eqn:E; constructor; auto.
Qed.

Lemma replace_app {A} (l1 l2 : Props A) k v :
  Obj.replace (l1 ++ l2) k v =
  if Obj.has l1 k then Obj.replace l1 k v ++ l2 else l1 ++ Obj.replace l2 k v.
Proof.
  unfold Obj.has. induction l1 as [|[k' v'] l1 IH]; cbn; [reflexivity|].
  destruct (String.eqb k' k); [reflexivity|]. rewrite IH.
  destruct (Obj.get_own l1 k); reflexivity.
Qed.

Lemma overwrites_scalar k' v k :
  is_object v = false -> k' <> k -> overwrites (k', v) k = false.
Proof.
  intros S N. unfold overwrites. cbn [fst snd]. rewrite S.
  apply String.eqb_neq, N.
Qed.

(** Assigning a scalar to another named field keeps a settled entry. *)
Lemma set_keeps_settled o k v k2 v2 :
  settled o k v -> k2 <> k -> is_object v2 = false -> Obj.array_index k2 = None ->
  settled (Obj.set o k2 v2) k v.
Proof.
  intros (pre & post & -> & F) N S I. rewrite set_named by exact I.
  assert (O : forall k', String.eqb k' k2 = true ->
                         overwrites (k', v2) k = false).
  { intros k' E. apply String.eqb_eq in E. subst. apply overwrites_scalar; assumption. }
  destruct (Obj.has (pre ++ (k, v) :: post) k2).
  - rewrite replace_app. destruct (Obj.has pre k2).
    + exists (Obj.replace pre k2 v2), post. split; [reflexivity|exact F].
    + cbn [Obj.replace]. apply not_eq_sym, String.eqb_neq in N. rewrite N.
      exists pre, (Obj.replace post k2 v2). split; [reflexivity|].
      apply replace_keeps; assumption.
  - exists pre, (post ++ [(k2, v2)]). split; [rewrite <- app_assoc; reflexivity|].
    apply Forall_app. split; [exact F|]. constructor; [|constructor].
    apply O, String.eqb_refl.
Qed.

Lemma existsb_replace o k k2 v2 :
  k2 <> k -> is_object v2 = false ->
  existsb (fun kv => overwrites kv k) o = false ->
  existsb (fun kv => overwrites kv k) (Obj.replace o k2 v2) = false.
Proof.
  intros N S. induction o as [|[k' v'] r IH]; cbn; [reflexivity|].
  intros H. apply orb_false_iff in H. destruct H as [H1 H2].
  destruct (String.eqb k' k2) eqn:E; cbn; apply orb_false_iff; split; auto.
  apply String.eqb_eq in E. subst. apply overwrites_scalar; assumption.
Qed.

(** Assigning a scalar to another named field shadows nothing. *)
Lemma set_keeps_unshadowed o k k2 v2 :
  k2 <> k -> is_object v2 = false -> Obj.array_index k2 = None ->
  shadowed o k = false -> shadowed (Obj.set o k2 v2) k = false.
Proof.
  intros N S I. rewrite set_named by exact I. destruct (Obj.has o k2).
  - induction o as [|[k' v'] r IH]; cbn; [reflexivity|].
    destruct (String.eqb k' k2) eqn:E2.
    + apply String.eqb_eq in E2. subst k'. cbn.
      apply String.eqb_neq in N. rewrite N. auto.
    + cbn. destruct (String.eqb k' k); [apply existsb_replace; assumption|exact IH].
  - induction o as [|[k' v'] r IH]; cbn.
    + apply String.eqb_neq in N. rewrite N. reflexivity.
    + destruct (String.eqb k' k); [|exact IH].
      rewrite existsb_app. cbn. intros ->. cbn.
      rewrite overwrites_scalar by assumption. reflexivity.
Qed.

Lemma js_add_scalar rt a b : is_object (js_add rt a b) = false.
Proof.
  unfold js_add. destruct (ToPrimitive rt a), (ToPrimitive rt b); reflexivity.
Qed.

Lemma stamp_active oppId revision record :
  is_object oppId = false -> is_object revision = false ->
  shadowed record "Active__c" = false ->
  settled (stamp oppId revision record) "Active__c" (JBool true).
Proof.
  intros So Sr S. unfold stamp.
  apply set_keeps_settled; [|discriminate|exact Sr|reflexivity].
  apply stamp_settles; [reflexivity|].
  apply set_keeps_unshadowed; [discriminate|exact So|reflexivity|exact S].
Qed.

Lemma stamp_revision oppId revision record :
  is_object oppId = false ->
  shadowed record "Version_Number__c" = false ->
  settled (stamp oppId revision record) "Version_Number__c" revision.
Proof.
  intros So S. unfold stamp. apply stamp_settles; [reflexivity|].
  apply set_keeps_unshadowed; [discriminate|reflexivity|reflexivity|].
  apply set_keeps_unshadowed; [discriminate|exact So|reflexivity|exact S].
Qed.

Lemma update_item_parent rt oppId item :
  Obj.get_own (update_item rt oppId item) "opportunity_id__c" = Some oppId.
Proof.
  unfold update_item. rewrite get_own_set_neq by discriminate. apply get_own_set_eq.
Qed.

Lemma update_item_other rt oppId item k :
  k <> "opportunity_id__c" -> k <> "Sales_Discount__c" ->
  Obj.get_own (update_item rt oppId item) k = Obj.get_own item k.
Proof.
  intros N1 N2. unfold update_item. rewrite !get_own_set_neq by assumption.
  reflexivity.
Qed.

(** The records of the create request of a run, row by row: the
    flattened records are fresh objects, so each is updated once. *)
Lemma processOliRecords_nth rt token oliData body submitted :
  processOliRecords rt token oliData body = Ok submitted ->
  exists oppId revision,
    parentId oliData = Ok oppId /\
    newRevision rt body = Ok revision /\
    forallb flattens (map (stamp oppId revision) oliData) = true /\
    length submitted = length oliData /\
    forall i record,
      nth_error oliData i = Some record ->
      nth_error submitted i =
        Some (spread [attributes]
                (update_item rt oppId (flat_record (stamp oppId revision record)))).
Proof.
  unfold processOliRecords. intros Run.
  destruct (parentId oliData) as [oppId|]; [|discriminate].
  destruct (newRevision rt body) as [revision|]; [|discriminate].
  cbn [bind] in Run.
  destruct (formatOLIs (map (stamp oppId revision) oliData)) as [formatted|] eqn:Fm;
    [|discriminate].
  destruct token as [t|]; [|discriminate]. cbn [bind] in Run.
  destruct (createLineItems rt oppId formatted (seq 0 (length formatted)))
    as [[h' records]|] eqn:C; [|discriminate].
  cbn [bind snd] in Run. injection Run as <-.
  apply formatOLIs_ok in Fm. destruct Fm as [Fl Ef].
  destruct (createLineItems_nth rt oppId _ _ _ _ (seq_NoDup _ _) C) as [L N].
  assert (Lf : length formatted = length oliData)
    by (rewrite Ef, !length_map; reflexivity).
  exists oppId, revision. split; [reflexivity|]. split; [reflexivity|].
  split; [exact Fl|]. split; [rewrite L, length_seq; exact Lf|].
  intros i record Hi.
  assert (Hf : nth_error formatted i =
               Some (flat_record (stamp oppId revision record))).
  { rewrite Ef, !nth_error_map, Hi. reflexivity. }
  assert (Hs : nth_error (seq 0 (length formatted)) i = Some i).
  { rewrite nth_error_seq.
    assert (i < length formatted) by (apply nth_error_Some; congruence).
    destruct (Nat.ltb_spec i (length formatted)); [reflexivity|lia]. }
  apply (N i i _ Hs Hf).
Qed.

(** In a run that reaches the create request, the new revision is the
    highest revision returned by the lookup plus one: 1 when the response
    holds no record and 6 when its first record holds 5.  The request
    holds one record per table row; each carries the parent id.  When the
    parent id is a scalar, each carries [Active__c = true] and the new
    revision under [Version_Number__c], unless the row's record already
    has a top-level field of that name followed by an entry from which
    flattening assigns the same name. *)
Lemma revision_stamping rt token oliData body submitted :
  processOliRecords rt token oliData body = Ok submitted ->
  exists oppId revision,
    parentId oliData = Ok oppId /\
    newRevision rt body = Ok revision /\
    (forall m, getHighestRevisionNumber rt body = Ok (JNum m) ->
               revision = JNum (m + 1)) /\
    (prop body "records" = Ok (JArr []) -> revision = JNum 1) /\
    (forall r0 rest,
        prop body "records" = Ok (JArr (JObj r0 :: rest)) ->
        field r0 "Version_Number__c" = JNum 5 -> revision = JNum 6) /\
    length submitted = length oliData /\
    forall i record,
      nth_error oliData i = Some record ->
      exists out,
        nth_error submitted i = Some out /\
        Obj.get_own out "opportunity_id__c" = Some oppId /\
        (is_object oppId = false -> shadowed record "Active__c" = false ->
         Obj.get_own out "Active__c" = Some (JBool true)) /\
        (is_object oppId = false -> shadowed record "Version_Number__c" = false ->
         Obj.get_own out "Version_Number__c" = Some revision).
Proof.
  intros Run.
  destruct (processOliRecords_nth rt token oliData body submitted Run)
    as (oppId & revision & P & NR & _ & L & N).
  assert (Sr : is_object revision = false).
  { unfold newRevision in NR.
    destruct (getHighestRevisionNumber rt body); [|discriminate].
    injection NR as <-. apply js_add_scalar. }
  assert (Rev : forall h, getHighestRevisionNumber rt body = Ok h ->
                          revision = js_add rt h (JNum 1)).
  { intros h H. unfold newRevision in NR. rewrite H in NR. injection NR as <-.
    reflexivity. }
  exists oppId, revision. repeat (split; [try assumption|]).
  - intros m H. apply (Rev _ H).
  - intros Pr. apply (Rev _ (highest_of_empty rt body Pr)).
  - intros r0 rest Pr V. rewrite (Rev _ (highest_of_records rt body r0 rest Pr)), V.
    reflexivity.
  - intros i record Hi.
    set (flat := flat_record (stamp oppId revision record)).
    assert (W : Obj.wf flat) by apply flat_record_wf.
    exists (spread [attributes] (update_item rt oppId flat)).
    split; [exact (N i record Hi)|]. split; [|split].
    + apply get_own_request; [exact W|apply update_item_parent].
    + intros So S. apply get_own_request; [exact W|].
      rewrite update_item_other by discriminate.
      apply flatten_settled; [|reflexivity].
      apply stamp_active; assumption.
    + intros So S. apply get_own_request; [exact W|].
      rewrite update_item_other by discriminate.
      apply flatten_settled; [|exact Sr].
      apply stamp_revision; assumption.
Qed.

Example revision_stamping_example :
  exists submitted out,
    processOliRecords Sample.runtime Sample.token Sample.table Sample.response_revision_5
    = Ok submitted /\
    length submitted = 2 /\
    nth_error submitted 1 = Some out /\
    Obj.get_own out "opportunity_id__c" = Some (JStr "006A") /\
    Obj.get_own out "Active__c" = Some (JBool true) /\
    Obj.get_own out "Version_Number__c" = Some (JNum 6).
Proof.
  do 2 eexists. split; [reflexivity|]. split; [reflexivity|].
  split; [reflexivity|]. split; [reflexivity|]. split; reflexivity.
Qed.

(** C5.  The parameter sheet [Sample.rows_revision_twice] reads
    [Version_Number__c] twice: on its own from the column [Rev] and again,
    within the line-item group, from the column [Line Rev].  For the data
    row [006A | 9 | 7] the lookup gives 5 and the new revision is 6, yet
    the record of the create request carries the cell value 9: step 5
    stamps the top-level field of the record, and [formatOLIs] then
    assigns the field of the nested group over it. *)
Theorem revision_overwritten :
  exists oliData out,
    buildDataTableFromParamsDynamic Sample.runtime Sample.rows_revision_twice
      Sample.header_revision_twice [ [JStr "006A"; JNum 9; JNum 7] ]
    = Ok (oliData, []) /\
    newRevision Sample.runtime Sample.response_revision_5 = Ok (JNum 6) /\
    processOliRecords Sample.runtime Sample.token oliData Sample.response_revision_5
    = Ok [out] /\
    Obj.get_own out "Version_Number__c" = Some (JNum 9).
Proof.
  do 2 eexists. split; [reflexivity|]. split; [reflexivity|]. split; reflexivity.
Qed.

(** In a run each record is rescaled once: the record of the request
    holds 100 times what the flattened, stamped record of its row holds. *)
Lemma run_discount_once rt token oliData body submitted :
  processOliRecords rt token oliData body = Ok submitted ->
  exists oppId revision,
    parentId oliData = Ok oppId /\
    newRevision rt body = Ok revision /\
    forall i record,
      nth_error oliData i = Some record ->
      exists out,
        nth_error submitted i = Some out /\
        Obj.get_own out "Sales_Discount__c" =
          Some (js_mul rt (JNum 100)
                  (field (flat_record (stamp oppId revision record))
                     "Sales_Discount__c")).
Proof.
  intros Run.
  destruct (processOliRecords_nth rt token oliData body submitted Run)
    as (oppId & revision & P & NR & _ & _ & N).
  exists oppId, revision. split; [exact P|]. split; [exact NR|].
  intros i record Hi. eexists. split; [exact (N i record Hi)|].
  apply get_own_request; [apply flat_record_wf|apply update_item_discount].
Qed.

(** ** The scenario of the specification *)

(** The parameter sheet [Sample.rows], the header [Product | Qty] and the
    data row [Widget | 10] give the record [{oli: {Product__c: "Widget",
    Quantity__c: 10}}], which flattens to [{Product__c: "Widget",
    Quantity__c: 10}]. *)
Example end_to_end_scenario :
  buildDataTableFromParamsDynamic Sample.runtime Sample.rows
    [JStr "Product"; JStr "Qty"] [ [JStr "Widget"; JNum 10] ]
  = Ok ([ [("oli", JObj [("Product__c", JStr "Widget"); ("Quantity__c", JNum 10)])] ], [])
  /\
  formatOLIs [ [("oli", JObj [("Product__c", JStr "Widget"); ("Quantity__c", JNum 10)])] ]
  = Ok [ [("Product__c", JStr "Widget"); ("Quantity__c", JNum 10)] ].
Proof. split; reflexivity. Qed.

(** * Further properties *)

(** ** The loader *)

Lemma has_merge_key params k value k' :
  Obj.has (merge_key params (k, value)) k' = String.eqb k k' || Obj.has params k'.
Proof.
  unfold Obj.has. rewrite merge_key_get. destruct (String.eqb k k'); reflexivity.
Qed.

Lemma aggregate_keys_run kvs : forall params,
  plain params = true -> Obj.has kvs "hasOwnProperty" = false ->
  fold_result aggregate_key kvs params = Ok (fold_left merge_key kvs params) /\
  plain (fold_left merge_key kvs params) = true.
Proof.
  induction kvs as [|[k v] kvs IH]; intros params P H; [split; [reflexivity|exact P]|].
  cbn [fold_result fold_left].
  unfold Obj.has in H. cbn [Obj.get_own] in H.
  destruct (String.eqb k "hasOwnProperty") eqn:E; [discriminate|].
  assert (A : aggregate_key params (k, v) = Ok (merge_key params (k, v))).
  { unfold aggregate_key, hasOwnProperty, merge_key.
    unfold plain in P. apply negb_true_iff in P. rewrite P. reflexivity. }
  rewrite A. cbn [bind]. apply IH; [|exact H].
  unfold plain. rewrite has_merge_key, E. exact P.
Qed.

Lemma load_rows_total rt rows : forall i params,
  plain params = true ->
  Forall (blank_or_plain rt) rows ->
  exists result, load_rows rt rows i params = Ok result.
Proof.
  induction rows as [|row rest IH]; intros i params P F; [cbn; eauto|].
  inversion F as [|? ? Hr F']; subst. cbn [load_rows].
  destruct (String.eqb (cell_text rt row) "") eqn:B; [apply IH; assumption|].
  destruct Hr as [E|(parsed & Pa & K)].
  - rewrite E in B. discriminate.
  - rewrite Pa. cbn [bind]. unfold plain_keys in K. apply andb_true_iff in K.
    destruct K as [K _]. apply negb_true_iff in K.
    destruct (aggregate_keys_run (enumerable parsed) params P K) as [A P'].
    unfold aggregate_parsed. rewrite A. apply IH; assumption.
Qed.

(** X1.  When every cell from the start row on is blank or is valid JSON
    whose keys are plain, the load returns. *)
Theorem load_succeeds rt data :
  data <> [] ->
  Forall (blank_or_plain rt) (skipn (startRow rt data) data) ->
  exists params, loadParametersFromJson rt data = Ok params.
Proof.
  intros N F. rewrite load_unfold by exact N. apply load_rows_total; [reflexivity|exact F].
Qed.

Lemma load_succeeds_witness :
  exists params, loadParametersFromJson Sample.runtime Sample.rows = Ok params.
Proof.
  apply load_succeeds; [discriminate|].
  vm_compute skipn.
  repeat (apply Forall_cons;
          [first [left; reflexivity | right; eexists; split; reflexivity]|]).
  apply Forall_nil.
Defined.

Lemma load_rows_index rt rows : forall i j params result,
  load_rows rt rows i params = Ok result ->
  load_rows rt rows j params = Ok result.
Proof.
  induction rows as [|row rest IH]; intros i j params result; cbn [load_rows]; [auto|].
  destruct (String.eqb (cell_text rt row) ""); [apply IH|].
  destruct (parsed <- JSON_parse rt (cell_text rt row) ;; aggregate_parsed params parsed);
    [apply IH|discriminate].
Qed.

Lemma load_rows_blank rt blank post pre : forall i params result,
  cell_text rt blank = "" ->
  load_rows rt (pre ++ blank :: post) i params = Ok result <->
  load_rows rt (pre ++ post) i params = Ok result.
Proof.
  induction pre as [|row pre IH]; intros i params result B; cbn [app].
  - cbn [load_rows]. rewrite B. cbn. split; apply load_rows_index.
  - cbn [load_rows]. destruct (String.eqb (cell_text rt row) ""); [apply IH, B|].
    destruct (parsed <- JSON_parse rt (cell_text rt row) ;; aggregate_parsed params parsed);
      [apply IH, B|tauto].
Qed.

(** X2.  A blank cell below the first row changes nothing in what a load
    returns: the sheet with the blank row loads exactly when the sheet
    without it does, and to the same parameters. *)
Theorem blank_rows_ignored rt first pre blank post params :
  cell_text rt blank = "" ->
  loadParametersFromJson rt (first :: pre ++ blank :: post) = Ok params <->
  loadParametersFromJson rt (first :: pre ++ post) = Ok params.
Proof.
  intros B. rewrite !load_unfold by discriminate.
  change (startRow rt (first :: pre ++ blank :: post))
    with (startRow rt (first :: pre ++ post)).
  destruct (startRow rt (first :: pre ++ post)) as [|[|n]] eqn:S.
  - cbn [skipn]. apply (load_rows_blank rt blank post (first :: pre)), B.
  - cbn [skipn]. apply load_rows_blank, B.
  - unfold startRow in S. destruct (JSON_parse rt (cell_text rt first)); discriminate.
Qed.

Lemma blank_rows_ignored_witness :
  loadParametersFromJson Sample.runtime
    ([JStr "Parameters"]
       :: [ [JStr (Sample.json_text "{'Input Sheet':{'Name':'Opp1'}}")] ]
       ++ [JStr "  "]
       :: [ [JStr (Sample.json_text "{'Table Header Row':{'Name':1}}")] ])
  = Ok [ ("Input Sheet", JObj [("Name", JStr "Opp1")]);
         ("Table Header Row", JObj [("Name", JNum 1)]) ].
Proof.
  apply (blank_rows_ignored Sample.runtime); reflexivity.
Defined.

(** X3.  A first row that is not valid JSON raises no error and adds
    nothing: the sheet loads as it does with a blank first row. *)
Theorem malformed_first_row_dropped rt first blank rest message :
  JSON_parse rt (cell_text rt first) = Throw message ->
  cell_text rt blank = "" ->
  loadParametersFromJson rt (first :: rest) =
  loadParametersFromJson rt (blank :: rest).
Proof.
  intros P B. rewrite !load_unfold by discriminate.
  unfold startRow. rewrite P. cbn [skipn].
  destruct (JSON_parse rt (cell_text rt blank)); cbn [skipn load_rows];
    [rewrite B; reflexivity|reflexivity].
Qed.

Lemma malformed_first_row_dropped_witness :
  loadParametersFromJson Sample.runtime
    ([JStr "{Input Sheet: Opp1}"]
       :: [ [JStr (Sample.json_text "{'Table Header Row':{'Name':1}}")] ])
  = Ok [ ("Table Header Row", JObj [("Name", JNum 1)]) ].
Proof.
  rewrite (malformed_first_row_dropped Sample.runtime _ [JStr ""] _ "Unexpected token");
    reflexivity.
Defined.

(** ** The column mapper *)




Lemma resolve_item_bounds rt headerRow key st st' item :
  Forall (fun m => col m < length headerRow /\ truthy (api m) = true) (fst st) ->
  resolve_item rt headerRow key st item = Ok st' ->
  Forall (fun m => col m < length headerRow /\ truthy (api m) = true) (fst st').
Proof.
  intros F. unfold resolve_item.
  destruct (prop item "object_label") as [label|]; [|discriminate]. cbn [bind].
  destruct (truthy label); cbn [negb]; [|intros [= <-]; exact F].
  destruct (prop item "object_api_name") as [apiName|]; [|discriminate]. cbn [bind].
  destruct (truthy apiName) eqn:TA; cbn [negb]; [|intros [= <-]; exact F].
  destruct (find_header rt headerRow _ 0) as [j|] eqn:H; intros [= <-]; cbn [fst];
    [|exact F].
  apply Forall_app. split; [exact F|]. constructor; [|constructor]. cbn [col api].
  split; [|exact TA].
  apply find_header_some in H. destruct H as [_ [[cell [Hc _]] _]].
  rewrite Nat.sub_0_r in Hc. apply nth_error_Some. congruence.
Qed.

Lemma resolve_group_bounds rt headerRow key items : forall st st',
  Forall (fun m => col m < length headerRow /\ truthy (api m) = true) (fst st) ->
  resolve_group rt headerRow key items st = Ok st' ->
  Forall (fun m => col m < length headerRow /\ truthy (api m) = true) (fst st').
Proof.
  induction items as [|item rest IH]; intros st st' F; cbn [resolve_group].
  - intros [= <-]. exact F.
  - destruct (resolve_item rt headerRow key st item) as [st1|] eqn:R; [|discriminate].
    cbn [bind]. apply IH. apply (resolve_item_bounds _ _ _ _ _ _ F R).
Qed.

Lemma map_groups_bounds rt headerRow entries : forall om log om' log',
  (forall key ms, Obj.get_own om key = Some ms ->
     Forall (fun m => col m < length headerRow /\ truthy (api m) = true) ms) ->
  map_groups rt headerRow entries om log = Ok (om', log') ->
  forall key ms, Obj.get_own om' key = Some ms ->
    Forall (fun m => col m < length headerRow /\ truthy (api m) = true) ms.
Proof.
  induction entries as [|[k gd] rest IH]; intros om log om' log' I; cbn [map_groups].
  - intros [= <- _]. exact I.
  - destruct (reserved k); [apply IH, I|].
    destruct (resolve_group rt headerRow k (groupArray gd) ([], log)) as [st|] eqn:R;
      [|discriminate].
    cbn [bind]. apply IH. intros key ms. rewrite get_own_set.
    destruct (String.eqb k key); [|apply I].
    intros [= <-]. eapply resolve_group_bounds; [|exact R]. constructor.
Qed.

(** X5.  Every pair of the mapping that the mapper returns names a column
    of the header row and a truthy output name. *)
Theorem mapping_columns_in_header rt params headerRow overallMapping log key ms m :
  buildOverallMapping rt params headerRow = Ok (overallMapping, log) ->
  Obj.get_own overallMapping key = Some ms ->
  In m ms ->
  col m < length headerRow /\ truthy (api m) = true.
Proof.
  intros H G Hin.
  assert (F : Forall (fun m => col m < length headerRow /\ truthy (api m) = true) ms).
  { refine (map_groups_bounds rt headerRow params [] [] overallMapping log _ H key ms G).
    intros ? ? E. discriminate E. }
  rewrite Forall_forall in F. apply F, Hin.
Qed.

Lemma mapping_columns_in_header_witness :
  col {| api := JStr "Quantity__c"; col := 2 |} < length Sample.header /\
  truthy (api {| api := JStr "Quantity__c"; col := 2 |}) = true.
Proof.
  apply (mapping_columns_in_header Sample.runtime Sample.params Sample.header
           [("oli", [ {| api := JStr "Product__c"; col := 0 |};
                      {| api := JStr "Quantity__c"; col := 2 |} ])] [] "oli"
           [ {| api := JStr "Product__c"; col := 0 |};
             {| api := JStr "Quantity__c"; col := 2 |} ]).
  - reflexivity.
  - reflexivity.
  - right. left. reflexivity.
Defined.

Lemma resolve_item_size rt headerRow key st st' item :
  resolve_item rt headerRow key st item = Ok st' ->
  length (fst st') + length (snd st') <= S (length (fst st) + length (snd st)).
Proof.
  unfold resolve_item.
  destruct (prop item "object_label") as [label|]; [|discriminate]. cbn [bind].
  destruct (truthy label); cbn [negb]; [|intros [= <-]; lia].
  destruct (prop item "object_api_name") as [apiName|]; [|discriminate]. cbn [bind].
  destruct (truthy apiName); cbn [negb]; [|intros [= <-]; lia].
  destruct (find_header rt headerRow _ 0); intros [= <-]; cbn [fst snd];
    rewrite length_app; cbn; lia.
Qed.

Lemma resolve_group_size rt headerRow key items : forall st st',
  resolve_group rt headerRow key items st = Ok st' ->
  length (fst st') + length (snd st') <=
  length (fst st) + length (snd st) + length items.
Proof.
  induction items as [|item rest IH]; intros st st'; cbn [resolve_group length].
  - intros [= <-]. lia.
  - destruct (resolve_item rt headerRow key st item) as [st1|] eqn:R; [|discriminate].
    cbn [bind]. intros H. apply IH in H. apply resolve_item_size in R. lia.
Qed.

(** X6.  A group never resolves to more pairs than it has elements: each
    element gives at most one pair. *)
Theorem mapping_size rt params headerRow overallMapping log key groupData :
  NoDup (Obj.keys params) ->
  Obj.get_own params key = Some groupData ->
  reserved key = false ->
  buildOverallMapping rt params headerRow = Ok (overallMapping, log) ->
  exists ms,
    Obj.get_own overallMapping key = Some ms /\
    length ms <= length (groupArray groupData).
Proof.
  intros ND G R H.
  destruct (get_own_split _ _ _ G) as (P1 & P2 & E).
  assert (Hk : ~ In key (Obj.keys P2)).
  { rewrite E in ND. unfold Obj.keys in ND. rewrite map_app in ND. cbn [map fst] in ND.
    apply NoDup_remove_2 in ND. intros Hin. apply ND, in_or_app. right. exact Hin. }
  unfold buildOverallMapping in H. rewrite E in H.
  destruct (map_groups_key _ _ _ _ _ _ _ _ _ _ R Hk H) as (dm & dw & RG & Gk & _).
  exists dm. split; [exact Gk|]. apply resolve_group_size in RG. cbn in RG. lia.
Qed.

Lemma mapping_size_witness :
  exists ms,
    Obj.get_own [("oli", [ {| api := JStr "Product__c"; col := 0 |};
                           {| api := JStr "Quantity__c"; col := 2 |} ])] "oli" = Some ms /\
    length ms <= 2.
Proof.
  apply (mapping_size Sample.runtime Sample.params Sample.header _ [] "oli"
           (JArr [Sample.label "Product" "Product__c"; Sample.label "Qty" "Quantity__c"])).
  - cbn. repeat constructor; cbn; intuition discriminate.
  - reflexivity.
  - reflexivity.
  - reflexivity.
Defined.






(** ** The table builder *)





(** ** The flattener *)

(** X10.  When [formatOLIs] returns, a flattened record has a field
    exactly when the record has it as a top-level scalar or as a field of
    a top-level object or array; a top-level field that holds an object is
    itself not kept. *)
Theorem flat_record_fields record flat k :
  flatten_record record = Ok flat ->
  k <> "__proto__" ->
  Obj.has flat k = existsb (fun kv => overwrites kv k) record.
Proof.
  intros R _. apply flatten_record_ok in R. destruct R as [_ ->].
  unfold flat_record. rewrite has_flatten. reflexivity.
Qed.

Lemma flat_record_fields_witness :
  Obj.has [("Product__c", JStr "Widget"); ("Quantity__c", JNum 10)] "oli"
  = existsb (fun kv => overwrites kv "oli")
      [("oli", JObj [("Product__c", JStr "Widget"); ("Quantity__c", JNum 10)])].
Proof.
  apply (flat_record_fields
           [("oli", JObj [("Product__c", JStr "Widget"); ("Quantity__c", JNum 10)])]);
    [reflexivity|discriminate].
Defined.

(** X11.  Flattening a record that consists of one nested group gives the
    group, unless a field of the group hides [hasOwnProperty]. *)
Theorem flatten_single_group group o :
  Obj.wf o ->
  group <> "hasOwnProperty" ->
  Obj.has o "hasOwnProperty" = false ->
  Obj.has o "__proto__" = false ->
  flatten_record [(group, JObj o)] = Ok o.
Proof.
  intros W G H _. rewrite flatten_record_returns.
  - f_equal. unfold flat_record. cbn [fold_left flat_key is_object enumerable].
    apply (assign_all_id o []). exact W.
  - unfold flattens, groups_plain, plain, Obj.has at 1. cbn [Obj.get_own forallb snd].
    apply String.eqb_neq in G. rewrite G, H. reflexivity.
Qed.

Lemma flatten_single_group_witness :
  flatten_record
    [("oli", JObj [("Product__c", JStr "Widget"); ("Quantity__c", JNum 10)])]
  = Ok [("Product__c", JStr "Widget"); ("Quantity__c", JNum 10)].
Proof.
  apply flatten_single_group; [|discriminate|reflexivity|reflexivity].
  split; cbn; repeat constructor; cbn; intuition discriminate.
Defined.

(** X12.  On a table built from rows of scalar cells, flattening twice
    gives what flattening once gives, records or exception, although the
    built records hold nested groups. *)
Theorem flatten_idempotent_on_tables rt m dataRows :
  Forall scalar_row dataRows ->
  (formatted <- formatOLIs (build_records rt m dataRows) ;; formatOLIs formatted)
  = formatOLIs (build_records rt m dataRows).
Proof.
  intros F. apply formatOLIs_twice. apply Forall_forall. intros record Hin.
  induction F as [|row rows Hr F IH]; cbn [build_records] in Hin; [destruct Hin|].
  destruct (blank_first_cell row); [destruct Hin|].
  destruct Hin as [<-|Hin]; [apply build_record_shape, Hr|apply IH, Hin].
Qed.

Lemma flatten_idempotent_on_tables_witness :
  (formatted <- formatOLIs
     (build_records Sample.runtime Sample.mapping [ [JStr "Widget"; JNum 10] ]) ;;
   formatOLIs formatted)
  = Ok [ [("Product__c", JStr "Widget"); ("Quantity__c", JNum 10)] ].
Proof.
  rewrite flatten_idempotent_on_tables; [reflexivity|].
  repeat constructor.
Defined.

(** X29.  [formatOLIs] returns exactly when no record, unless it is empty,
    has a field named [hasOwnProperty], and no nested object of a record
    has one: such a field hides the method that the loops call. *)
Theorem formatOLIs_returns_iff oliData :
  (exists formatted, formatOLIs oliData = Ok formatted) <->
  forallb flattens oliData = true.
Proof.
  split.
  - intros [formatted R]. apply (formatOLIs_ok _ _ R).
  - intros F. rewrite (formatOLIs_returns _ F). eauto.
Qed.

(** ** The revision lookup *)

(** X13.  The lookup never returns a falsy value other than the number 0:
    [null], [undefined], [NaN], [false] and the empty string all come out
    as 0. *)
Theorem highest_revision_is_usable rt body h :
  getHighestRevisionNumber rt body = Ok h ->
  truthy h = true \/ h = JNum 0.
Proof.
  unfold getHighestRevisionNumber.
  destruct (prop body "records") as [records|]; [|discriminate]. cbn [bind].
  destruct (truthy records && has_elements rt records); [|intros [= <-]; auto].
  destruct (prop (first_element records) "Version_Number__c") as [v|]; [|discriminate].
  cbn [bind]. destruct (truthy v) eqn:T; intros [= <-]; auto.
Qed.

Lemma highest_revision_is_usable_witness :
  truthy (JNum 0) = true \/ JNum 0 = JNum 0.
Proof.
  apply (highest_revision_is_usable Sample.runtime Sample.response_null_revision).
  reflexivity.
Defined.

(** ** The create request *)

Lemma length_store (h : Heap) a o : length (store h a o) = length h.
Proof.
  revert a. induction h as [|x h IH]; intros [|a]; cbn; auto.
Qed.

Lemma createLineItems_returns rt oppId lineItems : forall h,
  Forall (fun a => a < length h) lineItems ->
  exists h' records,
    createLineItems rt oppId h lineItems = Ok (h', records) /\
    length records = length lineItems /\ length h' = length h.
Proof.
  induction lineItems as [|a rest IH]; intros h F; cbn [createLineItems].
  - exists h, []. auto.
  - inversion F as [|? ? Ha F']; subst. unfold line_item_record.
    destruct (nth_error h a) as [item|] eqn:N;
      [|apply nth_error_None in N; lia].
    cbn [bind fst snd].
    destruct (IH (store h a (update_item rt oppId item))) as (h' & records & -> & L & Lh).
    { rewrite length_store. exact F'. }
    cbn [bind fst snd]. do 2 eexists. split; [reflexivity|].
    rewrite length_store in Lh. cbn. auto.
Qed.

Lemma createLineItems_addresses rt oppId lineItems : forall h result,
  createLineItems rt oppId h lineItems = Ok result ->
  Forall (fun a => a < length h) lineItems.
Proof.
  induction lineItems as [|a rest IH]; intros h result; cbn [createLineItems];
    [constructor|].
  unfold line_item_record. destruct (nth_error h a) as [item|] eqn:N; [|discriminate].
  cbn [bind fst snd].
  destruct (createLineItems rt oppId _ rest) as [rs|] eqn:C; [|discriminate].
  intros _. constructor.
  - apply nth_error_Some. congruence.
  - apply IH in C. rewrite length_store in C. exact C.
Qed.

(** X14.  [createLineItems] writes to the listed objects only: an object
    of the caller that is not listed is after the call what it was before;
    and the request holds one record per listed item. *)
Theorem create_touches_listed_only rt oppId h lineItems h' records :
  createLineItems rt oppId h lineItems = Ok (h', records) ->
  length records = length lineItems /\
  forall a, ~ In a lineItems -> nth_error h' a = nth_error h a.
Proof.
  intros C. split.
  - destruct (createLineItems_returns rt oppId lineItems h
                (createLineItems_addresses _ _ _ _ _ C))
      as (h'' & records' & C' & L & _).
    rewrite C in C'. injection C' as <- <-. exact L.
  - intros a N. apply (createLineItems_frame rt oppId lineItems h h' records a N C).
Qed.

Lemma create_touches_listed_only_witness :
  let h := [ [("Product__c", JStr "Widget")]; [("Product__c", JStr "Gadget")];
             [("Product__c", JStr "Sprocket")] ] in
  exists h' records,
    createLineItems Sample.runtime (JStr "006A") h [1; 0] = Ok (h', records) /\
    length records = 2 /\
    nth_error h' 2 = Some [("Product__c", JStr "Sprocket")].
Proof.
  cbv zeta.
  destruct (createLineItems Sample.runtime (JStr "006A")
              [ [("Product__c", JStr "Widget")]; [("Product__c", JStr "Gadget")];
                [("Product__c", JStr "Sprocket")] ] [1; 0]) as [[h' records]|] eqn:C;
    [|vm_compute in C; discriminate C].
  exists h', records. split; [reflexivity|].
  destruct (create_touches_listed_only _ _ _ _ _ _ C) as [L F].
  split; [exact L|]. rewrite F; [reflexivity|].
  cbn. intros [H|[H|[]]]; discriminate H.
Defined.

(** X15.  For pairwise distinct objects, the record of the request holds
    the parent id passed to the call, whatever parent id the object held;
    it holds the object's own [attributes] when it has one and the type
    marker otherwise; and it holds every other field but the discount as
    the object holds it. *)
Theorem create_request_fields rt oppId h lineItems h' records i a item record :
  NoDup lineItems ->
  createLineItems rt oppId h lineItems = Ok (h', records) ->
  nth_error lineItems i = Some a -> nth_error h a = Some item -> Obj.wf item ->
  nth_error records i = Some record ->
  Obj.get_own record "opportunity_id__c" = Some oppId /\
  Obj.get_own record "attributes" =
    Some (match Obj.get_own item "attributes" with
          | Some v => v
          | None => snd attributes
          end) /\
  (forall k, k <> "opportunity_id__c" -> k <> "Sales_Discount__c" ->
             k <> "attributes" ->
             Obj.get_own record k = Obj.get_own item k).
Proof.
  intros ND C Hi Ha W Hr.
  destruct (createLineItems_nth rt oppId lineItems h h' records ND C) as [_ N].
  destruct (N i a item Hi Ha) as [R _]. rewrite R in Hr. injection Hr as <-.
  assert (G : forall k,
             Obj.get_own (spread [attributes] (update_item rt oppId item)) k =
             match Obj.get_own (update_item rt oppId item) k with
             | Some v => Some v
             | None => Obj.get_own [attributes] k
             end).
  { intros k. apply get_own_assign_all. apply (update_item_wf rt oppId item W). }
  split; [|split].
  - rewrite G, update_item_parent. reflexivity.
  - rewrite G, update_item_other by discriminate.
    destruct (Obj.get_own item "attributes"); reflexivity.
  - intros k N1 N2 N3. rewrite G, update_item_other by assumption.
    destruct (Obj.get_own item k); [reflexivity|].
    unfold attributes. cbn [Obj.get_own].
    destruct (String.eqb "attributes" k) eqn:E; [|reflexivity].
    apply String.eqb_eq in E. congruence.
Qed.

Lemma create_request_fields_witness :
  let item := [("opportunity_id__c", JStr "006B"); ("Product__c", JStr "Widget")] in
  let record := [attributes; ("opportunity_id__c", JStr "006A");
                 ("Product__c", JStr "Widget"); ("Sales_Discount__c", JNum nan)] in
  Obj.get_own record "opportunity_id__c" = Some (JStr "006A") /\
  Obj.get_own record "attributes" =
    Some (match Obj.get_own item "attributes" with
          | Some v => v
          | None => snd attributes
          end) /\
  (forall k, k <> "opportunity_id__c" -> k <> "Sales_Discount__c" ->
             k <> "attributes" ->
             Obj.get_own record k = Obj.get_own item k).
Proof.
  cbv zeta.
  refine (create_request_fields Sample.runtime (JStr "006A")
            [ [("opportunity_id__c", JStr "006B"); ("Product__c", JStr "Widget")] ]
            [0] _ _ 0 0 _ _ _ eq_refl eq_refl eq_refl _ eq_refl).
  - repeat constructor. intros [].
  - split; cbn; repeat constructor; cbn; intuition discriminate.
Defined.


(** ** Deactivation *)

Lemma map_result_nth {A B} (f : A -> Result B) l : forall ys,
  map_result f l = Ok ys ->
  length ys = length l /\
  forall i x, nth_error l i = Some x ->
    exists y, f x = Ok y /\ nth_error ys i = Some y.
Proof.
  induction l as [|x0 l IH]; intros ys; cbn [map_result].
  - intros [= <-]. split; [reflexivity|]. intros [|i]; discriminate.
  - destruct (f x0) as [y0|] eqn:F; [|discriminate]. cbn [bind].
    destruct (map_result f l) as [ys0|]; [|discriminate]. cbn [bind].
    intros [= <-]. destruct (IH ys0 eq_refl) as [L N].
    split; [cbn; rewrite L; reflexivity|].
    intros [|i] x Hx; cbn in Hx.
    + injection Hx as <-. exists y0. auto.
    + apply (N i x Hx).
Qed.

(** X17.  The update request targets the records that the query for
    active items returned, one update per record and in the same order,
    each carrying the record's [Id] and [Active__c = false]. *)
Theorem deactivation_targets stringify json updates :
  deactivateAllActiveLineItems stringify json = Ok updates ->
  exists l,
    prop json "records" = Ok (JArr l) /\
    length updates = length l /\
    forall i record, nth_error l i = Some record ->
      exists recordId,
        prop record "Id" = Ok recordId /\
        nth_error updates i =
          Some [attributes; ("Id", recordId); ("Active__c", JBool false)].
Proof.
  unfold deactivateAllActiveLineItems, getActiveLineItemIds.
  destruct (prop json "records") as [records|]; [|discriminate]. cbn [bind].
  destruct (truthy records); cbn [negb]; [|discriminate].
  destruct records as [| | | | |l|]; try discriminate.
  destruct (map_result (fun record => prop record "Id") l) as [ids|] eqn:M;
    [|discriminate].
  cbn [bind]. intros [= <-]. exists l.
  destruct (map_result_nth _ _ _ M) as [L N].
  split; [reflexivity|]. split; [rewrite length_map; exact L|].
  intros i record Hi. destruct (N i record Hi) as (recordId & P & Hn).
  exists recordId. split; [exact P|]. rewrite nth_error_map, Hn. reflexivity.
Qed.

(** X18.  The variant that patches the records one by one targets the
    same ids in the same order; where it returns early without a PATCH,
    because the body holds no array of records, the batched variant
    throws. *)
Theorem deactivation_variants_agree stringify json :
  (forall ids, getActiveLineItemIds stringify json = Ok ids ->
               deactivateAllActiveLineItems_dep json = Ok (PatchedIds ids)) /\
  (forall body, deactivateAllActiveLineItems_dep json = Ok (NoRecords body) ->
                exists message, getActiveLineItemIds stringify json = Throw message).
Proof.
  unfold getActiveLineItemIds, deactivateAllActiveLineItems_dep.
  destruct (prop json "records") as [records|]; cbn [bind]; [|split; discriminate].
  destruct (truthy records); cbn [negb orb].
  - destruct records as [| | | | |l|]; cbn [isArray negb];
      try (split; [discriminate|eauto]).
    destruct (map_result (fun record => prop record "Id") l); cbn [bind].
    + split; [intros ids [= <-]; reflexivity|discriminate].
    + split; discriminate.
  - split; [discriminate|eauto].
Qed.

Lemma deactivation_targets_witness :
  exists l,
    prop Examples.response_two_active "records" = Ok (JArr l) /\
    length [ [attributes; ("Id", JStr "a1B01"); ("Active__c", JBool false)];
             [attributes; ("Id", JStr "a1B02"); ("Active__c", JBool false)] ]
    = length l /\
    forall i record, nth_error l i = Some record ->
      exists recordId,
        prop record "Id" = Ok recordId /\
        nth_error [ [attributes; ("Id", JStr "a1B01"); ("Active__c", JBool false)];
                    [attributes; ("Id", JStr "a1B02"); ("Active__c", JBool false)] ] i
        = Some [attributes; ("Id", recordId); ("Active__c", JBool false)].
Proof.
  apply (deactivation_targets Examples.stringify Examples.response_two_active).
  reflexivity.
Defined.

Lemma deactivation_variants_agree_witness :
  deactivateAllActiveLineItems_dep Examples.response_two_active
  = Ok (PatchedIds [JStr "a1B01"; JStr "a1B02"]) /\
  exists message,
    getActiveLineItemIds Examples.stringify Examples.response_error = Throw message.
Proof.
  split.
  - apply (proj1 (deactivation_variants_agree Examples.stringify _)). reflexivity.
  - apply (proj2 (deactivation_variants_agree Examples.stringify _)
             Examples.response_error).
    reflexivity.
Defined.

(** ** The run *)

(** X19.  A run reaches the create request only with a token, and the
    request then holds one record per row of the table, in row order: the
    stamped record of the row, flattened, updated by [createLineItems] and
    copied behind the type marker. *)
Theorem run_builds_request rt token oliData body submitted :
  processOliRecords rt token oliData body = Ok submitted ->
  (exists t, token = Ok t) /\
  length submitted = length oliData /\
  exists oppId revision,
    parentId oliData = Ok oppId /\
    newRevision rt body = Ok revision /\
    forall i record,
      nth_error oliData i = Some record ->
      exists flat,
        flatten_record (stamp oppId revision record) = Ok flat /\
        nth_error submitted i = Some (spread [attributes] (update_item rt oppId flat)).
Proof.
  intros Run. split.
  - destruct token as [t|message]; [eauto|]. unfold processOliRecords in Run.
    destruct (parentId oliData) as [oppId|]; [|discriminate].
    destruct (newRevision rt body) as [revision|]; [|discriminate].
    cbn [bind] in Run.
    destruct (formatOLIs (map (stamp oppId revision) oliData)); discriminate.
  - destruct (processOliRecords_nth rt token oliData body submitted Run)
      as (oppId & revision & P & NR & Fl & L & N).
    split; [exact L|]. exists oppId, revision. split; [exact P|]. split; [exact NR|].
    intros i record Hi. exists (flat_record (stamp oppId revision record)).
    split; [|exact (N i record Hi)].
    apply flatten_record_returns. rewrite forallb_forall in Fl. apply Fl.
    apply in_map, (nth_error_In _ _ Hi).
Qed.

Lemma run_builds_request_witness :
  exists submitted,
    processOliRecords Sample.runtime Sample.token Sample.table Sample.response_no_record
    = Ok submitted /\
    length submitted = length Sample.table.
Proof.
  destruct (processOliRecords Sample.runtime Sample.token Sample.table
              Sample.response_no_record) as [submitted|] eqn:Run;
    [|vm_compute in Run; discriminate Run].
  exists submitted. split; [reflexivity|].
  apply (run_builds_request _ _ _ _ _ Run).
Defined.

(** X20.  A run throws when the table is empty and when its first record
    has no [jellyfish_line_item__c] field; the builder leaves it out, for
    one, when the line-item group resolves to a single column. *)
Theorem run_needs_line_item_group rt token body :
  (exists message, processOliRecords rt token [] body = Throw message) /\
  (forall record rest,
      Obj.get_own record "jellyfish_line_item__c" = None ->
      exists message, processOliRecords rt token (record :: rest) body = Throw message).
Proof.
  split.
  - cbn. eauto.
  - intros record rest G. unfold processOliRecords, parentId. cbn [prop bind].
    rewrite G. cbn. eauto.
Qed.

Lemma run_needs_line_item_group_witness :
  exists message,
    processOliRecords Sample.runtime Sample.token
      (build_records Sample.runtime
         [("jellyfish_line_item__c", [ {| api := JStr "opportunity_id__c"; col := 0 |} ])]
         [ [JStr "006A"] ])
      Sample.response_no_record
    = Throw message.
Proof.
  apply (proj2 (run_needs_line_item_group Sample.runtime Sample.token
                  Sample.response_no_record)).
  reflexivity.
Defined.

(** X21.  When the store holds no active record and no earlier revision,
    a run that sends both requests sends an empty update request and a
    create request with one record per row; with a scalar parent id each
    record carries revision 1 and [Active__c = true], unless the row's
    record shadows the field. *)
Theorem first_revision_run rt stringify updateResponse token oliData
  activeBody revisionBody deactivation insertion :
  processOliRecords_requests rt stringify updateResponse token oliData
    activeBody revisionBody = Ok (deactivation, insertion) ->
  prop activeBody "records" = Ok (JArr []) ->
  prop revisionBody "records" = Ok (JArr []) ->
  deactivation = [] /\
  length insertion = length oliData /\
  exists oppId,
    parentId oliData = Ok oppId /\
    forall i record,
      nth_error oliData i = Some record ->
      exists out,
        nth_error insertion i = Some out /\
        (is_object oppId = false -> shadowed record "Version_Number__c" = false ->
         Obj.get_own out "Version_Number__c" = Some (JNum 1)) /\
        (is_object oppId = false -> shadowed record "Active__c" = false ->
         Obj.get_own out "Active__c" = Some (JBool true)).
Proof.
  unfold processOliRecords_requests, deactivateAllActiveLineItems, getActiveLineItemIds.
  intros Run A R. rewrite A in Run.
  destruct (parentId oliData) as [oppId|] eqn:P; [|discriminate].
  cbn [bind truthy negb map_result map] in Run.
  destruct updateResponse as [u|]; [|discriminate]. cbn [bind] in Run.
  destruct (processOliRecords rt token oliData revisionBody) as [submitted|] eqn:Sub;
    [|discriminate].
  cbn [bind] in Run. injection Run as <- <-.
  destruct (processOliRecords_nth rt token oliData revisionBody submitted Sub)
    as (oppId' & revision & P' & NR & _ & L & N).
  rewrite P in P'. injection P' as <-.
  assert (E : revision = JNum 1).
  { unfold newRevision in NR. rewrite (highest_of_empty rt revisionBody R) in NR.
    injection NR as <-. reflexivity. }
  subst revision.
  split; [reflexivity|]. split; [exact L|]. exists oppId. split; [reflexivity|].
  intros i record Hi. eexists. split; [apply (N i record Hi)|].
  assert (W : Obj.wf (flat_record (stamp oppId (JNum 1) record)))
    by apply flat_record_wf.
  split; intros So S; (apply get_own_request; [exact W|]);
    rewrite update_item_other by discriminate;
    (apply flatten_settled; [|reflexivity]).
  - apply stamp_revision; assumption.
  - apply stamp_active; [exact So|reflexivity|exact S].
Qed.

Lemma first_revision_run_witness :
  exists insertion,
    processOliRecords_requests Sample.runtime Examples.stringify
      (Ok (JArr [])) Sample.token Sample.table
      Sample.response_no_record Sample.response_no_record
    = Ok ([], insertion) /\
    length insertion = length Sample.table.
Proof.
  destruct (processOliRecords_requests Sample.runtime Examples.stringify
              (Ok (JArr [])) Sample.token Sample.table
              Sample.response_no_record Sample.response_no_record)
    as [[deactivation insertion]|] eqn:Run; [|vm_compute in Run; discriminate Run].
  destruct (first_revision_run _ _ _ _ _ _ _ _ _ Run eq_refl eq_refl) as (-> & L & _).
  exists insertion. split; [reflexivity|exact L].
Defined.

(** X22.  When the response to the query for active items holds no
    records, as the response of a store that rejects the query does, the
    run throws before the create request is built. *)
Theorem run_needs_active_query rt stringify updateResponse token oliData
  activeBody revisionBody records :
  prop activeBody "records" = Ok records ->
  truthy records = false ->
  exists message,
    processOliRecords_requests rt stringify updateResponse token oliData
      activeBody revisionBody
    = Throw message.
Proof.
  intros P T. unfold processOliRecords_requests.
  destruct (parentId oliData); cbn [bind]; [|eauto].
  unfold deactivateAllActiveLineItems, getActiveLineItemIds.
  rewrite P. cbn [bind]. rewrite T. cbn. eauto.
Qed.

Lemma run_needs_active_query_witness :
  exists message,
    processOliRecords_requests Sample.runtime Examples.stringify
      (Ok (JArr [])) Sample.token Sample.table
      Examples.response_error Sample.response_revision_5
    = Throw message.
Proof.
  apply (run_needs_active_query Sample.runtime Examples.stringify
           (Ok (JArr [])) Sample.token Sample.table
           Examples.response_error Sample.response_revision_5 JUndefined);
    reflexivity.
Defined.

(** ** The custom function *)

Lemma pair_cells_stop rt blank ignored pairs : forall obj,
  blank_value rt blank = true ->
  pair_cells rt (cells_of pairs ++ blank :: ignored) obj
  = pair_cells rt (cells_of pairs) obj.
Proof.
  induction pairs as [|[k v] r IH]; intros obj B.
  - cbn. rewrite B. reflexivity.
  - cbn. destruct (blank_value rt k); [reflexivity|]. apply IH, B.
Qed.



(** X23.  The custom function stops at the first blank key: the cells
    after it, and the rows after the first, do not change what it
    returns. *)
Theorem jsonify_stops_at_blank_key rt stringify groupName pairs blank ignored rows :
  blank_value rt blank = true ->
  JSONIFY_groupname_key_value_pairings rt stringify
    ((groupName :: cells_of pairs ++ blank :: ignored) :: rows)
  = JSONIFY_groupname_key_value_pairings rt stringify [groupName :: cells_of pairs].
Proof.
  intros B. unfold JSONIFY_groupname_key_value_pairings, jsonify_result.
  rewrite (pair_cells_stop rt blank ignored pairs [] B). reflexivity.
Qed.

Lemma jsonify_stops_at_blank_key_witness :
  JSONIFY_groupname_key_value_pairings Sample.runtime Examples.stringify
    [ JStr "MyGroup" ::
      cells_of [(JStr "Name", JStr "John"); (JStr "Age", JStr "30")]
      ++ JStr "" :: [JStr "ignored"] ]
  = JSONIFY_groupname_key_value_pairings Sample.runtime Examples.stringify
      [ JStr "MyGroup" ::
        cells_of [(JStr "Name", JStr "John"); (JStr "Age", JStr "30")] ].
Proof.
  apply (jsonify_stops_at_blank_key Sample.runtime Examples.stringify
           (JStr "MyGroup") [(JStr "Name", JStr "John"); (JStr "Age", JStr "30")]
           (JStr "") [JStr "ignored"] []).
  reflexivity.
Defined.





(** ** The log *)

Lemma log_sheet_flush st :
  log_sheet (flushLogs st) = log_sheet st ++ map log_row (logBuffer st).
Proof.
  unfold flushLogs. destruct (logBuffer st) eqn:B.
  - cbn. rewrite app_nil_r. reflexivity.
  - reflexivity.
Qed.

Lemma log_all_state calls : forall st,
  DEBUG_MODE (log_all calls st) = DEBUG_MODE st /\
  logBuffer (log_all calls st)
  = logBuffer st ++ map (fun c => (snd (fst c), snd c)) calls /\
  Logger_log (log_all calls st)
  = Logger_log st ++ (if DEBUG_MODE st then map snd calls else []) /\
  log_sheet (log_all calls st)
  = log_sheet st ++ (if DEBUG_MODE st then immediate_rows calls else []).
Proof.
  induction calls as [|[[t b] m] r IH]; intros st.
  - cbn. rewrite !app_nil_r. destruct (DEBUG_MODE st); rewrite ?app_nil_r; auto.
  - unfold log_all in *. cbn [fold_left fst snd].
    destruct (IH (logMessage t b m st)) as (D & B & L & S).
    rewrite D, B, L, S. unfold logMessage, log_sheet.
    destruct (DEBUG_MODE st) eqn:E; cbn; rewrite ?E, <- ?app_assoc; cbn;
      repeat split; reflexivity.
Qed.

(** X26.  After any calls of [logMessage] and a flush, the sheet holds
    what it held (with its header row, if it had to be created), then a
    row per call when [DEBUG_MODE] is set, then a row per buffered entry:
    in debug mode every message stands in the sheet twice.  The buffer is
    empty afterwards. *)
Theorem flushed_log calls st :
  log_sheet (flushLogs (log_all calls st))
  = log_sheet st
    ++ (if DEBUG_MODE st then immediate_rows calls else [])
    ++ map log_row (logBuffer st) ++ buffered_rows calls /\
  logBuffer (flushLogs (log_all calls st)) = [].
Proof.
  split.
  - rewrite log_sheet_flush.
    destruct (log_all_state calls st) as (_ & B & _ & S).
    rewrite S, B, map_app, map_map, <- app_assoc. reflexivity.
  - unfold flushLogs. destruct (logBuffer (log_all calls st)) eqn:B; [exact B|reflexivity].
Qed.

(** X27.  A flush right after a flush changes nothing. *)
Theorem flush_twice st : flushLogs (flushLogs st) = flushLogs st.
Proof.
  unfold flushLogs at 2 3. destruct (logBuffer st) eqn:B.
  - unfold flushLogs. rewrite B. reflexivity.
  - reflexivity.
Qed.

(** X28.  When [DEBUG_MODE] is off, calls of [logMessage] write neither to
    the execution log nor to the sheet, which is not even created; the
    messages reach the sheet with the next flush only. *)
Theorem quiet_log calls st :
  DEBUG_MODE st = false ->
  Logger_log (log_all calls st) = Logger_log st /\
  JF_SCRIPT_LOG (log_all calls st) = JF_SCRIPT_LOG st.
Proof.
  revert st. induction calls as [|[[t b] m] r IH]; intros st D.
  - split; reflexivity.
  - unfold log_all in *. cbn [fold_left fst snd].
    destruct (IH (logMessage t b m st)) as [L S].
    { unfold logMessage. rewrite D. exact D. }
    rewrite L, S. unfold logMessage. rewrite D. split; reflexivity.
Qed.

Lemma quiet_log_witness :
  let st := {| DEBUG_MODE := false; Logger_log := []; JF_SCRIPT_LOG := None;
               logBuffer := [] |} in
  let calls := [(1, 1, JStr "Starting loadParametersFromJson()");
                (2, 2, JStr "Detected last row in JF_SCRIPT_PARAMS: 3")] in
  Logger_log (log_all calls st) = Logger_log st /\
  JF_SCRIPT_LOG (log_all calls st) = JF_SCRIPT_LOG st.
Proof.
  cbv zeta. apply quiet_log. reflexivity.
Defined.
